(** * Encrypted local RPC client of the Amazon Q language server

    A shallow embedding of [src/codewhisperer/util/codeWhispererSession.ts]
    (the part that holds [writeEncryptionInit], [LspClient], [activate] and
    [deactivate]) together with the properties its specification states.

    Conventions of the embedding:
    - a JavaScript string is the [string] of its UTF-8 bytes, so that
      [new TextEncoder().encode(s)] is the list of the bytes of [s];
    - an [async] method is a computation over the [World] that completes
      normally (the promise resolves) or abruptly (the promise rejects);
    - what the host provides (node's [crypto], [jose], the language client
      library, the settings) is gathered in the record [Host]. *)

From Stdlib Require Import ZArith NArith Strings.Byte Ascii String DecimalString Lia.
From stdpp Require Import base option list strings gmap.

Set Warnings "-register-all".
Local Open Scope string_scope.
Local Open Scope list_scope.

(** ** Bytes and text *)

(** [new TextEncoder().encode(s)]. *)
Definition TextEncoder_encode (s : string) : list byte :=
  list_byte_of_string s.

(** [Number.prototype.toString] on an integer below 10 to the 21, where
    the text is the decimal digits. *)
Definition Number_toString (z : Z) : string :=
  NilZero.string_of_int (Z.to_int z).

(** [Array.prototype.join]. *)
Fixpoint join (sep : string) (parts : list string) : string :=
  match parts with
  | [] => ""
  | [p] => p
  | p :: rest => p +:+ sep +:+ join sep rest
  end.

(** *** Numbers

    A JavaScript number is given exactly: an integer, or a number that is
    not an integer by its shortest decimal digits. [Fraction negative
    digits point] is the number whose digits [d1 ... dk] are those of
    [digits] and whose value is [0.d1...dk] times 10 to the [point], with
    its sign; the last digit is not 0 and [point] is less than [k]. Every
    double has such a form; the comparisons and the text below are those of
    the exact value. *)
Inductive number : Type :=
| NaN
| Infinity (negative : bool)
| Integer (z : Z)
| Fraction (negative : bool) (digits : positive) (point : Z).

(** The decimal digits of a positive integer. *)
Definition decimal_digits (p : positive) : string :=
  NilEmpty.string_of_uint (Pos.to_uint p).

(** The value of a finite number, as a numerator [m] and a number [e] of
    decimals: the number is [m] divided by 10 to the [e]. *)
Definition number_value (x : number) : option (Z * nat) :=
  match x with
  | NaN | Infinity _ => None
  | Integer z => Some (z, 0)
  | Fraction negative digits point =>
      let k := Z.of_nat (String.length (decimal_digits digits)) in
      let s := if negative then Z.neg digits else Z.pos digits in
      if (k <=? point)%Z then Some ((s * 10 ^ (point - k))%Z, 0)
      else Some (s, Z.to_nat (k - point))
  end.

(** [x > c] and [x < c] for an integer [c]; a comparison with [NaN] is
    false. *)
Definition number_gtb (x : number) (c : Z) : bool :=
  match x with
  | NaN => false
  | Infinity negative => negb negative
  | _ =>
      match number_value x with
      | Some (m, e) => (c * 10 ^ Z.of_nat e <? m)%Z
      | None => false
      end
  end.

Definition number_ltb (x : number) (c : Z) : bool :=
  match x with
  | NaN => false
  | Infinity negative => negative
  | _ =>
      match number_value x with
      | Some (m, e) => (m <? c * 10 ^ Z.of_nat e)%Z
      | None => false
      end
  end.

(** [n] times the digit 0. *)
Fixpoint zeros (n : nat) : string :=
  match n with
  | 0 => ""
  | S n' => String "0" (zeros n')
  end.

(** A text of digits without the zeros at its end. *)
Fixpoint strip_zeros (s : string) : string :=
  match s with
  | EmptyString => ""
  | String c rest =>
      match strip_zeros rest with
      | EmptyString => if Ascii.eqb c "0" then "" else String c ""
      | stripped => String c stripped
      end
  end.

(** [Number::toString] (ECMA-262, 6.1.6.1.20) of the positive number whose
    shortest digits are [digits] and whose value is [0.digits] times 10 to
    the [n]. *)
Definition digits_toString (digits : string) (n : Z) : string :=
  let k := Z.of_nat (String.length digits) in
  if (k <=? n)%Z && (n <=? 21)%Z then
    digits +:+ zeros (Z.to_nat (n - k))
  else if (0 <? n)%Z && (n <=? 21)%Z then
    substring 0 (Z.to_nat n) digits +:+ "." +:+
    substring (Z.to_nat n) (Z.to_nat (k - n)) digits
  else if (-6 <? n)%Z && (n <=? 0)%Z then
    "0." +:+ zeros (Z.to_nat (- n)) +:+ digits
  else
    let exponent :=
      (if (n - 1 <? 0)%Z then "-" else "+") +:+
      NilZero.string_of_uint (N.to_uint (Z.to_N (Z.abs (n - 1)))) in
    match digits with
    | EmptyString => ""
    | String d EmptyString => String d ("e" +:+ exponent)
    | String d rest => String d ("." +:+ rest +:+ "e" +:+ exponent)
    end.

(** [Number.prototype.toString]. *)
Definition number_toString (x : number) : string :=
  match x with
  | NaN => "NaN"
  | Infinity negative => if negative then "-Infinity" else "Infinity"
  | Integer Z0 => "0"
  | Integer (Zpos p) =>
      digits_toString (strip_zeros (decimal_digits p))
        (Z.of_nat (String.length (decimal_digits p)))
  | Integer (Zneg p) =>
      "-" +:+ digits_toString (strip_zeros (decimal_digits p))
                (Z.of_nat (String.length (decimal_digits p)))
  | Fraction negative digits point =>
      (if negative then "-" else "") +:+
      digits_toString (decimal_digits digits) point
  end.

(** The decimal text of an integer from 1 to 99: one digit, or the tens
    and the units. *)
Definition decimal_digit (d : Z) : ascii := ascii_of_N (48 + Z.to_N d).

Definition decimal_1_99 (z : Z) : string :=
  if (z <? 10)%Z then String (decimal_digit z) ""
  else String (decimal_digit (z / 10)) (String (decimal_digit (z mod 10)) "").

(** *** [Buffer.prototype.toString('base64')]

    Node's encoder, written out after RFC 4648: three bytes give four
    characters of the standard alphabet, the tail is padded with [=]. *)
Definition base64_alphabet : string :=
  "ABCDEFGHIJKLMNOPQRSTUVWXYZabcdefghijklmnopqrstuvwxyz0123456789+/".

Definition base64_char (i : N) : ascii :=
  default "="%char (String.get (N.to_nat i) base64_alphabet).

Definition sextet1 (a : byte) : N := N.shiftr (Byte.to_N a) 2.
Definition sextet2 (a b : byte) : N :=
  N.lor (N.shiftl (N.land (Byte.to_N a) 3) 4) (N.shiftr (Byte.to_N b) 4).
Definition sextet3 (b c : byte) : N :=
  N.lor (N.shiftl (N.land (Byte.to_N b) 15) 2) (N.shiftr (Byte.to_N c) 6).
Definition sextet4 (c : byte) : N := N.land (Byte.to_N c) 63.

Fixpoint base64 (bs : list byte) : string :=
  match bs with
  | [] => ""
  | [a] =>
      String (base64_char (sextet1 a))
        (String (base64_char (sextet2 a x00)) "==")
  | [a; b] =>
      String (base64_char (sextet1 a))
        (String (base64_char (sextet2 a b))
           (String (base64_char (sextet3 b x00)) "="))
  | a :: b :: c :: rest =>
      String (base64_char (sextet1 a))
        (String (base64_char (sextet2 a b))
           (String (base64_char (sextet3 b c))
              (String (base64_char (sextet4 c)) (base64 rest))))
  end.

(** ** JSON *)

(** The data a payload or a response is made of. *)
Inductive json : Type :=
| JNull
| JBool (b : bool)
| JNum (z : Z)
| JStr (s : string)
| JArr (items : list json)
| JObj (fields : list (string * json)).

(** The quotation mark, U+0022. *)
Definition dquote : ascii := "034"%char.

Definition hex_digit (n : N) : ascii :=
  default "0"%char (String.get (N.to_nat n) "0123456789abcdef").

(** One code unit of [QuoteJSONString] (ECMA-262, 25.5.2.3). *)
Definition escape_char (c : ascii) : string :=
  let n := N_of_ascii c in
  if (n =? 34)%N then String "\" (String dquote "")
  else if (n =? 92)%N then "\\"
  else if (n =? 8)%N then "\b"
  else if (n =? 9)%N then "\t"
  else if (n =? 10)%N then "\n"
  else if (n =? 12)%N then "\f"
  else if (n =? 13)%N then "\r"
  else if (n <? 32)%N then
    "\u00" +:+ String (hex_digit (N.shiftr n 4))
                 (String (hex_digit (N.land n 15)) "")
  else String c "".

Fixpoint escape (s : string) : string :=
  match s with
  | EmptyString => ""
  | String c rest => escape_char c +:+ escape rest
  end.

Definition QuoteJSONString (s : string) : string :=
  String dquote (escape s +:+ String dquote "").

Definition JSON_member (stringify : json -> string) (kv : string * json) : string :=
  QuoteJSONString (fst kv) +:+ ":" +:+ stringify (snd kv).

(** [JSON.stringify] without replacer and indentation. *)
Fixpoint JSON_stringify (j : json) : string :=
  match j with
  | JNull => "null"
  | JBool true => "true"
  | JBool false => "false"
  | JNum z => Number_toString z
  | JStr s => QuoteJSONString s
  | JArr items => "[" +:+ join "," (map JSON_stringify items) +:+ "]"
  | JObj fields =>
      "{" +:+ join "," (map (JSON_member JSON_stringify) fields) +:+ "}"
  end.

(** ** JavaScript values and completions *)

(** What a request resolves to, and what may be thrown. *)
Inductive value : Type :=
| VUndefined
| VJson (j : json)
| VError (name message : string).

(** The empty array literal. *)
Definition empty_array : value := VJson (JArr []).

Definition json_ToString_item (ToString : json -> string) (j : json) : string :=
  match j with
  | JNull => ""
  | _ => ToString j
  end.

(** [ToString] as a template literal applies it; on an error it is
    [Error.prototype.toString]. *)
Fixpoint json_ToString (j : json) : string :=
  match j with
  | JNull => "null"
  | JBool true => "true"
  | JBool false => "false"
  | JNum z => Number_toString z
  | JStr s => s
  | JArr items => join "," (map (json_ToString_item json_ToString) items)
  | JObj _ => "[object Object]"
  end.

Definition ToString (v : value) : string :=
  match v with
  | VUndefined => "undefined"
  | VJson j => json_ToString j
  | VError EmptyString message => message
  | VError name EmptyString => name
  | VError name message => name +:+ ": " +:+ message
  end.

(** How an awaited operation ends: the promise resolves or rejects. *)
Inductive completion (A : Type) : Type :=
| Normal (a : A)
| Throw (e : value).
Arguments Normal {A} a.
Arguments Throw {A} e.

(** ** The protocol ([./types]) *)

(** The request types, one tag per kind of request. *)
Inductive RequestType : Type :=
| IndexRequestType
| BuildIndexRequestType
| QueryRequestType
| QueryBM25IndexRequestType
| QueryVectorIndexRequestType
| QueryCodeMapIndexRequestType
| GetUsageRequestType
| UpdateIndexRequestType
| UpdateIndexV2RequestType.

#[global] Instance RequestType_eq_dec : EqDecision RequestType.
Proof. solve_decision. Defined.

(** The declared type of the [target] of [queryV2]. *)
Inductive Target : Type := bm25 | vector | codemap.

Definition Target_string (t : Target) : string :=
  match t with
  | bm25 => "bm25"
  | vector => "vector"
  | codemap => "codemap"
  end.

(** The declared type of the [mode] of [updateIndexV2]. *)
Inductive UpdateMode : Type :=
| mode_update
| mode_remove
| mode_add
| mode_rename.

Definition UpdateMode_string (m : UpdateMode) : string :=
  match m with
  | mode_update => "update"
  | mode_remove => "remove"
  | mode_add => "add"
  | mode_rename => "rename"
  end.

(** ** The host *)

(** A request on the wire: its tag and its parameter. *)
Definition Request : Type := RequestType * string.

(** [LanguageClient] of [vscode-languageclient]: how the server behind it
    answers a request, given the requests it has received so far. *)
Record LanguageClient : Type := {
  sendRequest : list Request -> RequestType -> string -> completion value;
  stop : completion value;
}.

(** The protected header of a compact JWE. *)
Record ProtectedHeader : Type := { alg : string; enc : string }.

Record TextDocument : Type := { languageId : string }.
Record TextEditor : Type := { document : TextDocument }.

(** A handle on a [Writable]. *)
Definition Writable : Type := nat.

Record ChildProcess : Type := {
  spawnfile : string;
  spawnargs : list string;
  spawn_env : gmap string string;
  stdin : Writable;
}.

Record ExtensionContext : Type := {
  extensionPath : string;
  asAbsolutePath : string -> string;
}.

(** What the libraries around the module compute. *)
Record Host : Type := {
  (** the random source behind [crypto.randomBytes] *)
  crypto_entropy : nat -> byte;
  (** [new jose.CompactEncrypt(plaintext).setProtectedHeader(h).encrypt(k)];
      the last argument counts the encryptions made before this one *)
  jose_CompactEncrypt :
    ProtectedHeader -> list byte -> list byte -> nat -> completion string;
  (** [new LanguageClient(..., serverOptions, clientOptions)] over a child *)
  LanguageClient_new : ChildProcess -> LanguageClient;
  path_join : list string -> string;
}.

(** An [LspClient] object. *)
Record LspClient : Type := { client : option LanguageClient }.

(** ** The world *)

Record World : Type := {
  (** [process.env] *)
  process_env : gmap string string;
  (** [process.platform] *)
  process_platform : string;
  (** the answer of [CodeWhispererSettings.instance.getIndexWorkerThreads()] *)
  indexWorkerThreads : number;
  (** the answer of [CodeWhispererSettings.instance.isLocalIndexGPUEnabled()] *)
  localIndexGPUEnabled : bool;
  (** [vscode.window.activeTextEditor] *)
  activeTextEditor : option TextEditor;
  (** the static field [LspClient.#instance] *)
  static_instance : option nat;
  (** the [LspClient] objects, by address *)
  heap : list LspClient;
  (** the messages given to [getLogger().error] *)
  logged : list string;
  (** the requests sent over a channel *)
  wire : list Request;
  (** the payloads given to [encrypt] *)
  encrypted : list string;
  (** what was written to each [Writable] *)
  streams : list (list string);
  (** the processes spawned *)
  children : list ChildProcess;
}.

(** Field updates. *)
Definition with_process_env (x : gmap string string) (w : World) : World :=
  {| process_env := x; process_platform := process_platform w;
     indexWorkerThreads := indexWorkerThreads w;
     localIndexGPUEnabled := localIndexGPUEnabled w;
     activeTextEditor := activeTextEditor w;
     static_instance := static_instance w; heap := heap w;
     logged := logged w; wire := wire w; encrypted := encrypted w;
     streams := streams w; children := children w |}.

Definition with_static_instance (x : option nat) (w : World) : World :=
  {| process_env := process_env w; process_platform := process_platform w;
     indexWorkerThreads := indexWorkerThreads w;
     localIndexGPUEnabled := localIndexGPUEnabled w;
     activeTextEditor := activeTextEditor w; static_instance := x;
     heap := heap w; logged := logged w; wire := wire w;
     encrypted := encrypted w; streams := streams w; children := children w |}.

Definition with_heap (x : list LspClient) (w : World) : World :=
  {| process_env := process_env w; process_platform := process_platform w;
     indexWorkerThreads := indexWorkerThreads w;
     localIndexGPUEnabled := localIndexGPUEnabled w;
     activeTextEditor := activeTextEditor w;
     static_instance := static_instance w; heap := x; logged := logged w;
     wire := wire w; encrypted := encrypted w; streams := streams w;
     children := children w |}.

Definition with_logged (x : list string) (w : World) : World :=
  {| process_env := process_env w; process_platform := process_platform w;
     indexWorkerThreads := indexWorkerThreads w;
     localIndexGPUEnabled := localIndexGPUEnabled w;
     activeTextEditor := activeTextEditor w;
     static_instance := static_instance w; heap := heap w; logged := x;
     wire := wire w; encrypted := encrypted w; streams := streams w;
     children := children w |}.

Definition with_wire (x : list Request) (w : World) : World :=
  {| process_env := process_env w; process_platform := process_platform w;
     indexWorkerThreads := indexWorkerThreads w;
     localIndexGPUEnabled := localIndexGPUEnabled w;
     activeTextEditor := activeTextEditor w;
     static_instance := static_instance w; heap := heap w;
     logged := logged w; wire := x; encrypted := encrypted w;
     streams := streams w; children := children w |}.

Definition with_encrypted (x : list string) (w : World) : World :=
  {| process_env := process_env w; process_platform := process_platform w;
     indexWorkerThreads := indexWorkerThreads w;
     localIndexGPUEnabled := localIndexGPUEnabled w;
     activeTextEditor := activeTextEditor w;
     static_instance := static_instance w; heap := heap w;
     logged := logged w; wire := wire w; encrypted := x;
     streams := streams w; children := children w |}.

Definition with_streams (x : list (list string)) (w : World) : World :=
  {| process_env := process_env w; process_platform := process_platform w;
     indexWorkerThreads := indexWorkerThreads w;
     localIndexGPUEnabled := localIndexGPUEnabled w;
     activeTextEditor := activeTextEditor w;
     static_instance := static_instance w; heap := heap w;
     logged := logged w; wire := wire w; encrypted := encrypted w;
     streams := x; children := children w |}.

Definition with_children (x : list ChildProcess) (w : World) : World :=
  {| process_env := process_env w; process_platform := process_platform w;
     indexWorkerThreads := indexWorkerThreads w;
     localIndexGPUEnabled := localIndexGPUEnabled w;
     activeTextEditor := activeTextEditor w;
     static_instance := static_instance w; heap := heap w;
     logged := logged w; wire := wire w; encrypted := encrypted w;
     streams := streams w; children := x |}.

Definition with_indexWorkerThreads (x : number) (w : World) : World :=
  {| process_env := process_env w; process_platform := process_platform w;
     indexWorkerThreads := x;
     localIndexGPUEnabled := localIndexGPUEnabled w;
     activeTextEditor := activeTextEditor w;
     static_instance := static_instance w; heap := heap w;
     logged := logged w; wire := wire w; encrypted := encrypted w;
     streams := streams w; children := children w |}.

Definition with_localIndexGPUEnabled (x : bool) (w : World) : World :=
  {| process_env := process_env w; process_platform := process_platform w;
     indexWorkerThreads := indexWorkerThreads w; localIndexGPUEnabled := x;
     activeTextEditor := activeTextEditor w;
     static_instance := static_instance w; heap := heap w;
     logged := logged w; wire := wire w; encrypted := encrypted w;
     streams := streams w; children := children w |}.

Definition with_activeTextEditor (x : option TextEditor) (w : World) : World :=
  {| process_env := process_env w; process_platform := process_platform w;
     indexWorkerThreads := indexWorkerThreads w;
     localIndexGPUEnabled := localIndexGPUEnabled w; activeTextEditor := x;
     static_instance := static_instance w; heap := heap w;
     logged := logged w; wire := wire w; encrypted := encrypted w;
     streams := streams w; children := children w |}.

(** ** Computations *)

(** A computation runs on the world and completes normally or abruptly;
    what it did to the world stays done in both cases. *)
Definition M (A : Type) : Type := World -> completion A * World.

Definition ret {A : Type} (a : A) : M A := fun w => (Normal a, w).

Definition throw {A : Type} (e : value) : M A := fun w => (Throw e, w).

Definition bind {A B : Type} (m : M A) (k : A -> M B) : M B :=
  fun w =>
    match m w with
    | (Normal a, w') => k a w'
    | (Throw e, w') => (Throw e, w')
    end.

(** [try { body } catch (e) { handler }]. *)
Definition try_catch {A : Type} (body : M A) (handler : value -> M A) : M A :=
  fun w =>
    match body w with
    | (Normal a, w') => (Normal a, w')
    | (Throw e, w') => handler e w'
    end.

(** [await] of a promise that has settled. *)
Definition await {A : Type} (p : completion A) : M A := fun w => (p, w).

Definition gets {A : Type} (f : World -> A) : M A := fun w => (Normal (f w), w).

Definition modify (f : World -> World) : M unit := fun w => (Normal tt, f w).

Declare Scope js_scope.
Delimit Scope js_scope with js.
Notation "'let*' x ':=' m 'in' k" := (bind m (fun x => k))
  (at level 10, x name, m at level 100, k at level 200) : js_scope.
Local Open Scope js_scope.

(** *** The effects the module uses *)

(** [getLogger().error(message)]. *)
Definition Logger_error (message : string) : M unit :=
  modify (fun w => with_logged (logged w ++ [message]) w).

(** [stream.write(chunk)]. *)
Definition Writable_write (stream : Writable) (chunk : string) : M unit :=
  modify (fun w => with_streams (alter (fun cs => cs ++ [chunk]) stream (streams w)) w).

(** [process.env.NAME = v] and [delete process.env.NAME]. *)
Definition setenv (name v : string) : M unit :=
  modify (fun w => with_process_env (<[name := v]> (process_env w)) w).

Definition unsetenv (name : string) : M unit :=
  modify (fun w => with_process_env (delete name (process_env w)) w).

(** [cp.spawn(command, args)]: the child inherits [process.env] as it is
    now, and its standard input is a stream nothing was written to. *)
Definition spawn (command : string) (args : list string) : M ChildProcess :=
  fun w =>
    let child := {| spawnfile := command; spawnargs := args;
                    spawn_env := process_env w;
                    stdin := length (streams w) |} in
    (Normal child,
     with_children (children w ++ [child]) (with_streams (streams w ++ [[]]) w)).

(** [client.sendRequest(type, param)], awaited. *)
Definition client_sendRequest (c : LanguageClient) (type : RequestType)
    (param : string) : M value :=
  let* sent := gets wire in
  let* _ := modify (fun w => with_wire (wire w ++ [(type, param)]) w) in
  await (sendRequest c sent type param).

(** [client?.sendRequest(type, param)], awaited. *)
Definition optional_sendRequest (c : option LanguageClient)
    (type : RequestType) (param : string) : M value :=
  match c with
  | Some c => client_sendRequest c type param
  | None => ret VUndefined
  end.

(** The channel handle of the object at [this], if it has one. *)
Definition channel (w : World) (this : nat) : option LanguageClient :=
  o ← heap w !! this; client o.

(** [this.client]. *)
Definition this_client (this : nat) : M (option LanguageClient) :=
  gets (fun w => channel w this).

(** ** The module *)

Section Module_.
Context (H : Host).

(** [crypto.randomBytes(n)]. *)
Definition crypto_randomBytes (n : nat) : list byte :=
  map (crypto_entropy H) (seq 0 n).

(** [const key = crypto.randomBytes(32)], bound when the module loads. *)
Definition key : list byte := crypto_randomBytes 32.

(** The line feed, U+000A. *)
Definition newline : string := String "010"%char "".

Definition writeEncryptionInit (stream : Writable) : M unit :=
  let request :=
    JObj [("version", JStr "1.0"); ("mode", JStr "JWT");
          ("key", JStr (base64 key))] in
  let* _ := Writable_write stream (JSON_stringify request) in
  Writable_write stream newline.

(** [new LspClient()]: the constructor sets [client] to [undefined]. *)
Definition LspClient_new : M nat :=
  fun w => (Normal (length (heap w)),
            with_heap (heap w ++ [{| client := None |}]) w).

(** The static getter [LspClient.instance]:
    [this.#instance ??= new this()]. *)
Definition LspClient_instance : M nat :=
  let* i := gets static_instance in
  match i with
  | Some this => ret this
  | None =>
      let* this := LspClient_new in
      let* _ := modify (with_static_instance (Some this)) in
      ret this
  end.

(** [this.client = c]. *)
Definition set_client (this : nat) (c : option LanguageClient) : M unit :=
  modify (fun w => with_heap (<[this := {| client := c |}]> (heap w)) w).

Definition encrypt (payload : string) : M string :=
  let* n := gets (fun w => length (encrypted w)) in
  let* _ := modify (fun w => with_encrypted (encrypted w ++ [payload]) w) in
  await (jose_CompactEncrypt H {| alg := "dir"; enc := "A256GCM" |} key
           (TextEncoder_encode payload) n).

Definition indexFiles (this : nat) (request : list string)
    (rootPath : string) (refresh : bool) : M value :=
  try_catch
    (let* encryptedRequest :=
       encrypt (JSON_stringify
                  (JObj [("filePaths", JArr (map JStr request));
                         ("rootPath", JStr rootPath);
                         ("refresh", JBool refresh)])) in
     let* c := this_client this in
     let* resp := optional_sendRequest c IndexRequestType encryptedRequest in
     ret resp)
    (fun e =>
       let* _ := Logger_error ("LspClient: indexFiles error: " +:+ ToString e) in
       ret VUndefined).

Definition indexFilesV2 (this : nat) (paths : list string)
    (rootPath : string) : M value :=
  let* editor := gets activeTextEditor in
  let language := default "plaintext" (languageId ∘ document <$> editor) in
  let payload :=
    JObj [("filePaths", JArr (map JStr paths));
          ("projectRoot", JStr rootPath);
          ("config", JStr "all");
          ("language", JStr language)] in
  try_catch
    (let* encryptedRequest := encrypt (JSON_stringify payload) in
     let* c := this_client this in
     let* resp := optional_sendRequest c BuildIndexRequestType encryptedRequest in
     ret resp)
    (fun e =>
       let* _ := Logger_error ("LspClient: indexFilesV2 error: " +:+ ToString e) in
       ret VUndefined).

Definition query (this : nat) (request : string) : M value :=
  try_catch
    (let* encryptedRequest :=
       encrypt (JSON_stringify (JObj [("query", JStr request)])) in
     let* c := this_client this in
     let* resp := optional_sendRequest c QueryRequestType encryptedRequest in
     ret resp)
    (fun e =>
       let* _ := Logger_error ("LspClient: query error: " +:+ ToString e) in
       ret empty_array).

(** [target] is the string the caller passes; its declared type is
    [Target]. *)
Definition queryV2 (this : nat) (query : string) (target : string) : M value :=
  try_catch
    (let request :=
       if String.eqb target "codemap"
       then JSON_stringify (JObj [("filePath", JStr query)])
       else JSON_stringify (JObj [("query", JStr query)]) in
     let* encrpted := encrypt request in
     let* c := this_client this in
     let* resp :=
       if String.eqb target "bm25" then
         optional_sendRequest c QueryBM25IndexRequestType encrpted
       else if String.eqb target "vector" then
         optional_sendRequest c QueryVectorIndexRequestType encrpted
       else if String.eqb target "codemap" then
         optional_sendRequest c QueryCodeMapIndexRequestType encrpted
        else throw (VError "Error" ("invalid target: " +:+ target)) in
     ret resp)
    (fun e =>
       let* _ := Logger_error ("LspClient: query error: " +:+ ToString e) in
       ret empty_array).

Definition getLspServerUsage (this : nat) : M value :=
  let* c := this_client this in
  match c with
  | Some c => client_sendRequest c GetUsageRequestType ""
  | None => ret VUndefined
  end.

Definition updateIndex (this : nat) (filePath : string) : M value :=
  try_catch
    (let* encryptedRequest :=
       encrypt (JSON_stringify (JObj [("filePath", JStr filePath)])) in
     let* c := this_client this in
     let* resp := optional_sendRequest c UpdateIndexRequestType encryptedRequest in
     ret resp)
    (fun e =>
       let* _ := Logger_error ("LspClient: updateIndex error: " +:+ ToString e) in
       ret VUndefined).

(** [mode] is the string the caller passes; its declared type is
    [UpdateMode]. *)
Definition updateIndexV2 (this : nat) (filePath : list string)
    (mode : string) : M value :=
  let payload :=
    JObj [("filePaths", JArr (map JStr filePath));
          ("updateMode", JStr mode)] in
  try_catch
    (let* encryptedRequest := encrypt (JSON_stringify payload) in
     let* c := this_client this in
     let* resp := optional_sendRequest c UpdateIndexV2RequestType encryptedRequest in
     ret resp)
    (fun e =>
       let* _ := Logger_error ("LspClient: updateIndexV2 error: " +:+ ToString e) in
       ret VUndefined).

(** [activate]. The calls on the language client ([registerProposedFeatures],
    [start], [onReady]) act on the host alone, and whether the promise of
    [onReady] settles is left out: the computation ends where the client
    has been started. The subscriptions it registers call [updateIndex]
    and [updateIndexV2] on [LspClient.instance] when the editor reports a
    change, and [rangeFormatting] is never set. *)
Definition activate (extensionContext : ExtensionContext) : M unit :=
  let* _ := LspClient_instance in
  let serverModule :=
    path_join H [extensionPath extensionContext;
                 "resources/qserver/lspServer.js"] in
  let execArgv := ["--nolazy"; "--preserve-symlinks"; "--stdio"] in
  let* workerThreads := gets indexWorkerThreads in
  let* gpu := gets localIndexGPUEnabled in
  let* _ :=
    if gpu : bool then setenv "Q_ENABLE_GPU" "true"
    else unsetenv "Q_ENABLE_GPU" in
  let* _ :=
    if number_gtb workerThreads 0 && number_ltb workerThreads 100
    then setenv "Q_WORKER_THREADS" (number_toString workerThreads)
    else unsetenv "Q_WORKER_THREADS" in
  let* platform := gets process_platform in
  let nodename := if String.eqb platform "win32" then "node.exe" else "node" in
  let* child :=
    spawn (asAbsolutePath extensionContext (path_join H ["resources"; nodename]))
          (serverModule :: execArgv) in
  let* _ := writeEncryptionInit (stdin child) in
  let* this := LspClient_instance in
  let* _ := set_client this (Some (LanguageClient_new H child)) in
  let* _registerProposedFeatures := LspClient_instance in
  let* _start := LspClient_instance in
  let* _onReady := LspClient_instance in
  ret tt.

Definition deactivate : M value :=
  let* this := LspClient_instance in
  let* c := this_client this in
  match c with
  | None => ret VUndefined
  | Some _ =>
      let* this := LspClient_instance in
      let* c := this_client this in
      match c with
      | Some c => await (stop c)
      | None =>
          throw (VError "TypeError"
                   "Cannot read properties of undefined (reading 'stop')")
      end
  end.

End Module_.

(** ** The request kinds

    The six kinds of request that carry a payload, with the arguments of a
    call at the declared types, and what the specification says of each. *)

Inductive Call : Type :=
| CallIndexFiles (request : list string) (rootPath : string) (refresh : bool)
| CallIndexFilesV2 (paths : list string) (rootPath : string)
| CallQuery (request : string)
| CallQueryV2 (query : string) (target : Target)
| CallUpdateIndex (filePath : string)
| CallUpdateIndexV2 (filePath : list string) (mode : UpdateMode).

(** The call [c] on the object at [this]. *)
Definition call (H : Host) (this : nat) (c : Call) : M value :=
  match c with
  | CallIndexFiles request rootPath refresh =>
      indexFiles H this request rootPath refresh
  | CallIndexFilesV2 paths rootPath => indexFilesV2 H this paths rootPath
  | CallQuery request => query H this request
  | CallQueryV2 q target => queryV2 H this q (Target_string target)
  | CallUpdateIndex filePath => updateIndex H this filePath
  | CallUpdateIndexV2 filePath mode =>
      updateIndexV2 H this filePath (UpdateMode_string mode)
  end.

(** The name of the method behind a call. *)
Definition method_name (c : Call) : string :=
  match c with
  | CallIndexFiles _ _ _ => "indexFiles"
  | CallIndexFilesV2 _ _ => "indexFilesV2"
  | CallQuery _ => "query"
  | CallQueryV2 _ _ => "queryV2"
  | CallUpdateIndex _ => "updateIndex"
  | CallUpdateIndexV2 _ _ => "updateIndexV2"
  end.

(** The tag a kind is sent under. *)
Definition Target_RequestType (t : Target) : RequestType :=
  match t with
  | bm25 => QueryBM25IndexRequestType
  | vector => QueryVectorIndexRequestType
  | codemap => QueryCodeMapIndexRequestType
  end.

Definition Call_RequestType (c : Call) : RequestType :=
  match c with
  | CallIndexFiles _ _ _ => IndexRequestType
  | CallIndexFilesV2 _ _ => BuildIndexRequestType
  | CallQuery _ => QueryRequestType
  | CallQueryV2 _ target => Target_RequestType target
  | CallUpdateIndex _ => UpdateIndexRequestType
  | CallUpdateIndexV2 _ _ => UpdateIndexV2RequestType
  end.

(** The language [indexFilesV2] reports in the world [w]. *)
Definition editor_language (w : World) : string :=
  match activeTextEditor w with
  | Some editor => languageId (document editor)
  | None => "plaintext"
  end.

(** The payload shapes of the specification (External interfaces, RPC
    request kinds). *)
Definition spec_payload (c : Call) (w : World) : json :=
  match c with
  | CallIndexFiles request rootPath refresh =>
      JObj [("filePaths", JArr (map JStr request));
            ("rootPath", JStr rootPath); ("refresh", JBool refresh)]
  | CallIndexFilesV2 paths rootPath =>
      JObj [("filePaths", JArr (map JStr paths));
            ("projectRoot", JStr rootPath); ("config", JStr "all");
            ("language", JStr (editor_language w))]
  | CallQuery request => JObj [("query", JStr request)]
  | CallQueryV2 q codemap => JObj [("filePath", JStr q)]
  | CallQueryV2 q _ => JObj [("query", JStr q)]
  | CallUpdateIndex filePath => JObj [("filePath", JStr filePath)]
  | CallUpdateIndexV2 filePath mode =>
      JObj [("filePaths", JArr (map JStr filePath));
            ("updateMode", JStr (UpdateMode_string mode))]
  end.

(** The sentinels of the specification: the empty sequence for the listing
    kinds, [undefined] for the single-value kinds. *)
Definition spec_sentinel (c : Call) : value :=
  match c with
  | CallQuery _ | CallQueryV2 _ _ => empty_array
  | _ => VUndefined
  end.

(** The log entry the specification asks for when a call of kind [c] fails
    with [e]: one tagged with the kind the failure comes from. *)
Definition spec_log_entry (c : Call) (e : value) : string :=
  "LspClient: " +:+ method_name c +:+ " error: " +:+ ToString e.

(** The name a method writes into its log entry. *)
Definition logged_name (c : Call) : string :=
  match c with
  | CallIndexFiles _ _ _ => "indexFiles"
  | CallIndexFilesV2 _ _ => "indexFilesV2"
  | CallQuery _ => "query"
  | CallQueryV2 _ _ => "query"
  | CallUpdateIndex _ => "updateIndex"
  | CallUpdateIndexV2 _ _ => "updateIndexV2"
  end.

Definition log_entry (c : Call) (e : value) : string :=
  "LspClient: " +:+ logged_name c +:+ " error: " +:+ ToString e.

(** What [jose] answers when the payload of [c] is encrypted in [w]. *)
Definition ciphertext (H : Host) (c : Call) (w : World) : completion string :=
  jose_CompactEncrypt H {| alg := "dir"; enc := "A256GCM" |} (key H)
    (TextEncoder_encode (JSON_stringify (spec_payload c w)))
    (length (encrypted w)).

(** The world once the payload of [c] has been given to [encrypt]. *)
Definition after_encrypt (c : Call) (w : World) : World :=
  with_encrypted (encrypted w ++ [JSON_stringify (spec_payload c w)]) w.

(** The world once a request has been put on the wire. *)
Definition after_send (r : Request) (w : World) : World :=
  with_wire (wire w ++ [r]) w.

(** The world once a message has been logged. *)
Definition after_log (message : string) (w : World) : World :=
  with_logged (logged w ++ [message]) w.

(** ** The life of the process

    What the extension does with the module once it is loaded: every use
    of the client goes through the static getter. *)

Inductive Op : Type :=
| OpInstance
| OpActivate (extensionContext : ExtensionContext)
| OpDeactivate
| OpCall (c : Call)
| OpGetLspServerUsage
| OpWriteEncryptionInit (stream : Writable)
| OpChangeActiveTextEditor (editor : option TextEditor)
| OpChangeSettings (workerThreads : number) (gpu : bool).

Definition perform (H : Host) (op : Op) : M value :=
  match op with
  | OpInstance => let* _ := LspClient_instance in ret VUndefined
  | OpActivate extensionContext =>
      let* _ := activate H extensionContext in ret VUndefined
  | OpDeactivate => deactivate
  | OpCall c => let* this := LspClient_instance in call H this c
  | OpGetLspServerUsage =>
      let* this := LspClient_instance in getLspServerUsage this
  | OpWriteEncryptionInit stream =>
      let* _ := writeEncryptionInit H stream in ret VUndefined
  | OpChangeActiveTextEditor editor =>
      let* _ := modify (with_activeTextEditor editor) in ret VUndefined
  | OpChangeSettings workerThreads gpu =>
      let* _ := modify (with_indexWorkerThreads workerThreads) in
      let* _ := modify (with_localIndexGPUEnabled gpu) in
      ret VUndefined
  end.

(** The world after a sequence of operations. *)
Definition run (H : Host) (ops : list Op) (w : World) : World :=
  fold_left (fun w op => snd (perform H op w)) ops w.

(** At most one [LspClient] object exists, and the static field holds it. *)
Definition one_instance (w : World) : Prop :=
  (static_instance w = None /\ heap w = []) \/
  (static_instance w = Some 0 /\ length (heap w) = 1).

(** ** The bootstrap line

    The line of the specification (External interfaces, standard-input
    bootstrap message), for the base64 text [k] of the key. *)

(** [s] between quotation marks, as it stands. *)
Definition quoted (s : string) : string :=
  String dquote (s +:+ String dquote "").

Definition spec_init_line (k : string) : string :=
  "{" +:+ quoted "version" +:+ ":" +:+ quoted "1.0" +:+ "," +:+
  quoted "mode" +:+ ":" +:+ quoted "JWT" +:+ "," +:+
  quoted "key" +:+ ":" +:+ quoted k +:+ "}".

(** The occurrences of a character in a text. *)
Fixpoint count_char (c : ascii) (s : string) : nat :=
  match s with
  | EmptyString => 0
  | String c' rest => (if Ascii.eqb c c' then 1 else 0) + count_char c rest
  end.

(** A character [QuoteJSONString] leaves as it is. *)
Definition plain_char (c : ascii) : bool :=
  let n := N_of_ascii c in
  negb (n =? 34)%N && negb (n =? 92)%N && negb (n <? 32)%N.

Fixpoint plain (s : string) : bool :=
  match s with
  | EmptyString => true
  | String c rest => plain_char c && plain rest
  end.

(** ** Test doubles

    A host and two channels to run the module on: the stand-in for [jose]
    returns a text made of the header, the draw and the plaintext. *)

Definition mock_jose (h : ProtectedHeader) (k plaintext : list byte) (n : nat)
    : completion string :=
  Normal (alg h +:+ "." +:+ enc h +:+ "." +:+ Number_toString (Z.of_nat n)
          +:+ "." +:+ string_of_list_byte plaintext).

(** A channel that answers every request with [{ok: true}]. *)
Definition mock_echo : LanguageClient :=
  {| sendRequest := fun _ _ _ => Normal (VJson (JObj [("ok", JBool true)]));
     stop := Normal VUndefined |}.

(** A channel on which every request is rejected. *)
Definition mock_reject : LanguageClient :=
  {| sendRequest := fun _ _ _ => Throw (VError "Error" "boom");
     stop := Normal VUndefined |}.

Definition mock_host : Host :=
  {| crypto_entropy := fun i => default x00 (Byte.of_nat (7 * i + 3));
     jose_CompactEncrypt := mock_jose;
     LanguageClient_new := fun _ => mock_echo;
     path_join := join "/" |}.

Definition mock_context : ExtensionContext :=
  {| extensionPath := "/ext"; asAbsolutePath := fun p => "/ext/" +:+ p |}.

(** The world when the module has been loaded and nothing has run. *)
Definition world0 : World :=
  {| process_env := ∅; process_platform := "linux";
     indexWorkerThreads := Integer 0; localIndexGPUEnabled := false;
     activeTextEditor := None; static_instance := None; heap := [];
     logged := []; wire := []; encrypted := []; streams := [];
     children := [] |}.

(** The world with one [LspClient] object whose channel is [c]. *)
Definition world_with (c : option LanguageClient) : World :=
  with_static_instance (Some 0) (with_heap [{| client := c |}] world0).

(** One step through a method: reduce, then split on the next answer of
    the host. *)
Ltac run_step :=
  cbv beta zeta;
  cbn -[JSON_stringify String.append ToString channel key TextEncoder_encode];
  repeat match goal with
    | |- context [channel (with_encrypted ?x ?w) ?this] =>
        change (channel (with_encrypted x w) this) with (channel w this)
    end;
  match goal with
  | |- context [match jose_CompactEncrypt ?H ?h ?k ?p ?n with _ => _ end] =>
      destruct (jose_CompactEncrypt H h k p n)
  | |- context [match channel ?w ?this with _ => _ end] =>
      destruct (channel w this)
  | |- context [match sendRequest ?c ?sent ?ty ?p with _ => _ end] =>
      destruct (sendRequest c sent ty p)
  end.

(** ** The suggestion session ([CodeWhispererSession])

    The recommendations are objects: the array of the session holds
    references into a store, and a write through one reference is seen
    through every other reference to the same object. A time is a number
    the code only compares with 0. *)

Record Position : Type := { line : Z; character : Z }.

(** A [Recommendation]: the two properties the session reads and writes,
    and the others. *)
Record Recommendation : Type := {
  suggestionState : option string;
  completionType : string;
  otherProperties : json;
}.

Record CodeWhispererSession : Type := {
  sessionId : string;
  requestIdList : list string;
  startPos : Position;
  leftContextOfCurrentLine : string;
  requestContext_request : json;
  requestContext_supplementalMetadata : option json;
  language : string;
  taskType : option string;
  recommendations : list nat;
  fetchCredentialStartTime : Z;
  sdkApiCallStartTime : Z;
  invokeSuggestionStartTime : Z;
}.

(** [new CodeWhispererSession()]: the field initialisers. *)
Definition CodeWhispererSession_new : CodeWhispererSession :=
  {| sessionId := ""; requestIdList := [];
     startPos := {| line := 0; character := 0 |};
     leftContextOfCurrentLine := "";
     requestContext_request := JObj [];
     requestContext_supplementalMetadata := Some (JObj []);
     language := "java"; taskType := None; recommendations := [];
     fetchCredentialStartTime := 0; sdkApiCallStartTime := 0;
     invokeSuggestionStartTime := 0 |}.

(** The session and the store of the recommendation objects. *)
Record Memory : Type := {
  this_session : CodeWhispererSession;
  objects : nat -> Recommendation;
}.

Definition with_fetchCredentialStartTime (t : Z) (s : CodeWhispererSession)
    : CodeWhispererSession :=
  {| sessionId := sessionId s; requestIdList := requestIdList s;
     startPos := startPos s;
     leftContextOfCurrentLine := leftContextOfCurrentLine s;
     requestContext_request := requestContext_request s;
     requestContext_supplementalMetadata := requestContext_supplementalMetadata s;
     language := language s; taskType := taskType s;
     recommendations := recommendations s;
     fetchCredentialStartTime := t;
     sdkApiCallStartTime := sdkApiCallStartTime s;
     invokeSuggestionStartTime := invokeSuggestionStartTime s |}.

Definition with_sdkApiCallStartTime (t : Z) (s : CodeWhispererSession)
    : CodeWhispererSession :=
  {| sessionId := sessionId s; requestIdList := requestIdList s;
     startPos := startPos s;
     leftContextOfCurrentLine := leftContextOfCurrentLine s;
     requestContext_request := requestContext_request s;
     requestContext_supplementalMetadata := requestContext_supplementalMetadata s;
     language := language s; taskType := taskType s;
     recommendations := recommendations s;
     fetchCredentialStartTime := fetchCredentialStartTime s;
     sdkApiCallStartTime := t;
     invokeSuggestionStartTime := invokeSuggestionStartTime s |}.

(** [performance.now()] reads [now]. *)
Definition setFetchCredentialStart (now : Z) (this : CodeWhispererSession)
    : CodeWhispererSession :=
  if (fetchCredentialStartTime this =? 0)%Z
     && negb (invokeSuggestionStartTime this =? 0)%Z
  then with_fetchCredentialStartTime now this
  else this.

Definition setSdkApiCallStart (now : Z) (this : CodeWhispererSession)
    : CodeWhispererSession :=
  if (sdkApiCallStartTime this =? 0)%Z
     && negb (fetchCredentialStartTime this =? 0)%Z
  then with_sdkApiCallStartTime now this
  else this.

(** [this.recommendations[index]]: the element at an index of the array,
    [undefined] at any other number. *)
Definition recommendations_at (this : CodeWhispererSession) (index : Z)
    : option nat :=
  if (index <? 0)%Z then None else recommendations this !! Z.to_nat index.

(** [o.suggestionState = value] on the object behind the reference [r]. *)
Definition write_suggestionState (r : nat) (value : string)
    (store : nat -> Recommendation) : nat -> Recommendation :=
  fun r' =>
    if Nat.eqb r' r
    then {| suggestionState := Some value;
            completionType := completionType (store r');
            otherProperties := otherProperties (store r') |}
    else store r'.

Definition setSuggestionState (index : Z) (value : string) (m : Memory)
    : completion unit * Memory :=
  match recommendations_at (this_session m) index with
  | Some r =>
      (Normal tt,
       {| this_session := this_session m;
          objects := write_suggestionState r value (objects m) |})
  | None =>
      (Throw (VError "TypeError"
                "Cannot set properties of undefined (setting 'suggestionState')"),
       m)
  end.

Definition getSuggestionState (index : Z) (m : Memory)
    : completion (option string) :=
  match recommendations_at (this_session m) index with
  | Some r => Normal (suggestionState (objects m r))
  | None =>
      Throw (VError "TypeError"
               "Cannot read properties of undefined (reading 'suggestionState')")
  end.

Definition getCompletionType (index : Z) (m : Memory) : completion string :=
  match recommendations_at (this_session m) index with
  | Some r => Normal (completionType (objects m r))
  | None =>
      Throw (VError "TypeError"
               "Cannot read properties of undefined (reading 'completionType')")
  end.

(** A call of one of the two setters of a start time, with the reading of
    the clock at that moment. *)
Inductive TimingCall : Type :=
| CallSetFetchCredentialStart (now : Z)
| CallSetSdkApiCallStart (now : Z).

Definition timing_step (this : CodeWhispererSession) (c : TimingCall)
    : CodeWhispererSession :=
  match c with
  | CallSetFetchCredentialStart now => setFetchCredentialStart now this
  | CallSetSdkApiCallStart now => setSdkApiCallStart now this
  end.

(** A later start time is recorded only when the earlier one is. *)
Definition timing_ordered (s : CodeWhispererSession) : Prop :=
  (sdkApiCallStartTime s <> 0%Z -> fetchCredentialStartTime s <> 0%Z) /\
  (fetchCredentialStartTime s <> 0%Z -> invokeSuggestionStartTime s <> 0%Z).

(** ** The subscriptions of [activate]

    The handlers [activate] registers. Of a document or an editor they
    read the [uri] of the document only; [savedDocument] is the variable
    they share. *)

Record Uri : Type := { scheme : string; fsPath : string }.

(** [vscode.workspace.onDidSaveTextDocument]. *)
Definition onDidSaveTextDocument (document_uri : Uri)
    (savedDocument : option Uri) : option Uri :=
  if negb (String.eqb (scheme document_uri) "file") then savedDocument
  else Some document_uri.

(** [vscode.window.onDidChangeActiveTextEditor]; the promise of
    [updateIndex] is left to itself ([void]). *)
Definition onDidChangeActiveTextEditor (H : Host) (editor_uri : option Uri)
    (savedDocument : option Uri) : M unit :=
  match savedDocument, editor_uri with
  | Some saved, Some uri =>
      if negb (String.eqb (fsPath uri) (fsPath saved)) then
        let* this := LspClient_instance in
        let* _ := updateIndex H this (fsPath saved) in
        ret tt
      else ret tt
  | _, _ => ret tt
  end.

(** [vscode.workspace.onDidCreateFiles]. *)
Definition onDidCreateFiles (H : Host) (files : list Uri) : M unit :=
  let* this := LspClient_instance in
  let* _ := updateIndexV2 H this (map fsPath files) "add" in
  ret tt.

(** [vscode.workspace.onDidDeleteFiles]. *)
Definition onDidDeleteFiles (H : Host) (files : list Uri) : M unit :=
  let* this := LspClient_instance in
  let* _ := updateIndexV2 H this (map fsPath files) "remove" in
  ret tt.

(** [vscode.workspace.onDidRenameFiles]: the body is commented out. *)
Definition onDidRenameFiles (files : list (Uri * Uri)) : M unit := ret tt.

(** The editor changes [editors], one after the other, while
    [savedDocument] holds [saved]. *)
Fixpoint editor_changes (H : Host) (saved : option Uri)
    (editors : list (option Uri)) : M unit :=
  match editors with
  | [] => ret tt
  | editor :: rest =>
      let* _ := onDidChangeActiveTextEditor H editor saved in
      editor_changes H saved rest
  end.

(** The editor shows a document at another path than [saved]. *)
Definition shows_another (saved : Uri) (editor : option Uri) : bool :=
  match editor with
  | Some uri => negb (String.eqb (fsPath uri) (fsPath saved))
  | None => false
  end.

(** ** Reading base64 back

    The inverse of [base64], as the child reads the key of the bootstrap
    line: four characters give three bytes, [=] marks a short tail. *)

Fixpoint index_of (c : ascii) (s : string) (i : N) : option N :=
  match s with
  | EmptyString => None
  | String c' rest =>
      if Ascii.eqb c c' then Some i else index_of c rest (N.succ i)
  end.

Definition base64_index (c : ascii) : option N :=
  index_of c base64_alphabet 0.

Definition octet1 (s1 s2 : N) : N := N.lor (N.shiftl s1 2) (N.shiftr s2 4).
Definition octet2 (s2 s3 : N) : N :=
  N.lor (N.shiftl (N.land s2 15) 4) (N.shiftr s3 2).
Definition octet3 (s3 s4 : N) : N := N.lor (N.shiftl (N.land s3 3) 6) s4.

Fixpoint base64_decode (s : string) : option (list byte) :=
  match s with
  | EmptyString => Some []
  | String c1 (String c2 (String c3 (String c4 rest))) =>
      i1 ← base64_index c1;
      i2 ← base64_index c2;
      if Ascii.eqb c4 "="%char then
        match rest with
        | EmptyString =>
            if Ascii.eqb c3 "="%char then
              a ← Byte.of_N (octet1 i1 i2); Some [a]
            else
              i3 ← base64_index c3;
              a ← Byte.of_N (octet1 i1 i2);
              b ← Byte.of_N (octet2 i2 i3);
              Some [a; b]
        | _ => None
        end
      else
        i3 ← base64_index c3;
        i4 ← base64_index c4;
        a ← Byte.of_N (octet1 i1 i2);
        b ← Byte.of_N (octet2 i2 i3);
        c ← Byte.of_N (octet3 i3 i4);
        tail ← base64_decode rest;
        Some (a :: b :: c :: tail)
  | _ => None
  end.

(** Every byte, for checks by enumeration. *)
Definition all_bytes : list byte :=
  map (fun n => default x00 (Byte.of_nat n)) (seq 0 256).

(** ** Reading a payload back *)

(** [p] is the beginning of [s]. *)
Fixpoint is_prefix (p s : string) : bool :=
  match p, s with
  | EmptyString, _ => true
  | String c p', String c' s' => Ascii.eqb c c' && is_prefix p' s'
  | String _ _, EmptyString => false
  end.

(** The escape of a character does not begin with a quotation mark. *)
Definition escape_begins_unquoted (c : ascii) : bool :=
  match escape_char c with
  | String x _ => negb (Ascii.eqb x dquote)
  | EmptyString => false
  end.

(** Every character, for checks by enumeration. *)
Definition all_ascii : list ascii := map ascii_of_nat (seq 0 256).

(** ** What may be on the wire *)

(** A request on the wire is the request for the usage, with its empty
    parameter, or carries what [jose] returned, under the session key, for
    a payload given to [encrypt]. *)
Definition encrypted_request (H : Host) (w : World) (r : Request) : Prop :=
  (fst r = GetUsageRequestType /\ snd r = "") \/
  (fst r <> GetUsageRequestType /\
   exists n payload,
     encrypted w !! n = Some payload /\
     jose_CompactEncrypt H {| alg := "dir"; enc := "A256GCM" |} (key H)
       (TextEncoder_encode payload) n = Normal (snd r)).

(** * Properties *)

(** ** How a call runs *)

Lemma editor_language_default (w : World) :
  default "plaintext" (languageId ∘ document <$> activeTextEditor w) =
  editor_language w.
Proof. unfold editor_language. by destruct (activeTextEditor w). Qed.

(** The whole behaviour of the six methods, by cases on what [jose] and the
    channel answer. *)
Lemma call_runs (H : Host) (this : nat) (c : Call) (w : World) :
  call H this c w =
  match ciphertext H c w with
  | Throw e =>
      (Normal (spec_sentinel c), after_log (log_entry c e) (after_encrypt c w))
  | Normal s =>
      match channel w this with
      | None => (Normal VUndefined, after_encrypt c w)
      | Some cl =>
          let w1 := after_send (Call_RequestType c, s) (after_encrypt c w) in
          match sendRequest cl (wire w) (Call_RequestType c) s with
          | Normal v => (Normal v, w1)
          | Throw e => (Normal (spec_sentinel c), after_log (log_entry c e) w1)
          end
      end
  end.
Proof.
  unfold call, ciphertext, after_log, after_send, after_encrypt, log_entry.
  destruct c as [request rootPath refresh|paths rootPath|request|q t
                |filePath|filePath mode];
    [ unfold indexFiles | unfold indexFilesV2 | unfold query
    | unfold queryV2; destruct t | unfold updateIndex | unfold updateIndexV2 ];
    unfold try_catch, bind, encrypt, gets, modify, await, this_client,
      optional_sendRequest, client_sendRequest, Logger_error, ret;
    cbn -[JSON_stringify String.append ToString channel key TextEncoder_encode];
    rewrite ?editor_language_default;
    repeat run_step; reflexivity.
Qed.

(** ** Text *)

Lemma list_ind3 {A : Type} (P : list A -> Prop) :
  P [] -> (forall a, P [a]) -> (forall a b, P [a; b]) ->
  (forall a b c l, P l -> P (a :: b :: c :: l)) ->
  forall l, P l.
Proof.
  intros H0 H1 H2 H3.
  fix IH 1. intros [|a [|b [|c l]]].
  - exact H0.
  - exact (H1 a).
  - exact (H2 a b).
  - exact (H3 a b c l (IH l)).
Qed.

Lemma base64_char_plain (i : N) : plain_char (base64_char i) = true.
Proof.
  unfold base64_char. generalize (N.to_nat i) as n. intros n.
  do 65 (destruct n as [|n]; [reflexivity|]). reflexivity.
Qed.

Lemma base64_plain (bs : list byte) : plain (base64 bs) = true.
Proof.
  induction bs as [|a|a b|a b c l IH] using list_ind3; cbn [base64 plain];
    rewrite ?base64_char_plain, ?IH; reflexivity.
Qed.

Lemma escape_char_plain (c : ascii) :
  plain_char c = true -> escape_char c = String c "".
Proof.
  unfold plain_char, escape_char. cbv zeta.
  destruct (N_of_ascii c =? 34)%N; [discriminate|].
  destruct (N_of_ascii c =? 92)%N; [discriminate|].
  destruct (N_of_ascii c <? 32)%N eqn:Hlt; [discriminate|]. intros _.
  apply N.ltb_ge in Hlt.
  repeat match goal with
    | |- context [(N_of_ascii c =? ?k)%N] =>
        destruct (N.eqb_spec (N_of_ascii c) k); [lia|]
    end.
  reflexivity.
Qed.

Lemma escape_plain (s : string) : plain s = true -> escape s = s.
Proof.
  induction s as [|c s IH]; cbn [plain escape]; [reflexivity|].
  intros [Hc Hs]%andb_prop. by rewrite escape_char_plain, IH.
Qed.

Lemma QuoteJSONString_plain (s : string) :
  plain s = true -> QuoteJSONString s = quoted s.
Proof. intros Hs. unfold QuoteJSONString, quoted. by rewrite escape_plain. Qed.

Lemma plain_no_newline (s : string) :
  plain s = true -> count_char "010"%char s = 0.
Proof.
  induction s as [|c s IH]; cbn [plain count_char]; [reflexivity|].
  intros [Hc Hs]%andb_prop. rewrite (IH Hs).
  destruct (Ascii.eqb_spec "010"%char c) as [<-|]; [discriminate|reflexivity].
Qed.

Lemma count_char_app (c : ascii) (s t : string) :
  count_char c (s +:+ t) = count_char c s + count_char c t.
Proof.
  induction s as [|c' s IH]; [reflexivity|].
  change (String c' s +:+ t) with (String c' (s +:+ t)).
  cbn [count_char]. rewrite IH. lia.
Qed.

Lemma count_char_quoted (s : string) :
  count_char "010"%char (quoted s) = count_char "010"%char s.
Proof.
  unfold quoted. cbn [count_char]. rewrite count_char_app.
  cbn. lia.
Qed.

Lemma length_crypto_randomBytes (H : Host) (n : nat) :
  length (crypto_randomBytes H n) = n.
Proof. unfold crypto_randomBytes. by rewrite length_map, length_seq. Qed.

Lemma stringify_init_request (k : list byte) :
  JSON_stringify
    (JObj [("version", JStr "1.0"); ("mode", JStr "JWT");
           ("key", JStr (base64 k))]) =
  spec_init_line (base64 k).
Proof.
  cbn [JSON_stringify map join]. unfold JSON_member.
  cbn [JSON_stringify fst snd].
  rewrite (QuoteJSONString_plain (base64 k)) by apply base64_plain.
  reflexivity.
Qed.

Lemma init_line_no_newline (k : list byte) :
  count_char "010"%char (spec_init_line (base64 k)) = 0.
Proof.
  unfold spec_init_line.
  rewrite !count_char_app, !count_char_quoted.
  rewrite (plain_no_newline _ (base64_plain k)). reflexivity.
Qed.

(** ** Activation *)

(** The environment [activate] leaves behind, which is the one the child
    is spawned with. *)
Lemma activate_spawns (H : Host) (ctx : ExtensionContext) (w : World) :
  exists child,
    fst (activate H ctx w) = Normal tt /\
    children (snd (activate H ctx w)) = children w ++ [child] /\
    stdin child = length (streams w) /\
    streams (snd (activate H ctx w)) =
      streams w ++ [[spec_init_line (base64 (key H)); newline]] /\
    spawn_env child = process_env (snd (activate H ctx w)) /\
    process_env (snd (activate H ctx w)) =
      (let env :=
         if localIndexGPUEnabled w
         then <["Q_ENABLE_GPU" := "true"]> (process_env w)
         else delete "Q_ENABLE_GPU" (process_env w) in
       if number_gtb (indexWorkerThreads w) 0 && number_ltb (indexWorkerThreads w) 100
       then <["Q_WORKER_THREADS" := number_toString (indexWorkerThreads w)]> env
       else delete "Q_WORKER_THREADS" env).
Proof.
  unfold activate, writeEncryptionInit, LspClient_instance, LspClient_new,
    set_client, spawn, setenv, unsetenv, Writable_write, bind, gets, modify, ret.
  rewrite stringify_init_request.
  destruct (static_instance w) eqn:Hi, (localIndexGPUEnabled w) eqn:Hg,
    (number_gtb (indexWorkerThreads w) 0 && number_ltb (indexWorkerThreads w) 100) eqn:Ht;
    repeat (progress (cbn -[spec_init_line base64 key number_gtb number_ltb number_toString]; rewrite ?Hi, ?Hg, ?Ht));
    eexists; (split; [reflexivity|]); (split; [reflexivity|]);
    (split; [reflexivity|]);
    (split; [|split; reflexivity]).
  all: rewrite <- (Nat.add_0_r (length (streams w))) at 1 2.
  all: rewrite !alter_app_r; reflexivity.
Qed.

(** ** What the six methods leave behind *)

Lemma call_result (H : Host) (this : nat) (c : Call) (w : World) :
  fst (call H this c w) =
  match ciphertext H c w with
  | Throw _ => Normal (spec_sentinel c)
  | Normal s =>
      match channel w this with
      | None => Normal VUndefined
      | Some cl =>
          match sendRequest cl (wire w) (Call_RequestType c) s with
          | Normal v => Normal v
          | Throw _ => Normal (spec_sentinel c)
          end
      end
  end.
Proof.
  rewrite call_runs.
  destruct (ciphertext H c w); [destruct (channel w this) as [cl|]|];
    [destruct (sendRequest cl _ _ _)| |]; reflexivity.
Qed.

Lemma call_wire (H : Host) (this : nat) (c : Call) (w : World) :
  wire (snd (call H this c w)) =
  wire w ++
  match ciphertext H c w, channel w this with
  | Normal s, Some _ => [(Call_RequestType c, s)]
  | _, _ => []
  end.
Proof.
  rewrite call_runs.
  destruct (ciphertext H c w); [destruct (channel w this) as [cl|]|];
    [destruct (sendRequest cl _ _ _)| |]; cbn; by rewrite ?app_nil_r.
Qed.

Lemma call_logged (H : Host) (this : nat) (c : Call) (w : World) :
  logged (snd (call H this c w)) =
  logged w ++
  match ciphertext H c w with
  | Throw e => [log_entry c e]
  | Normal s =>
      match channel w this with
      | None => []
      | Some cl =>
          match sendRequest cl (wire w) (Call_RequestType c) s with
          | Normal _ => []
          | Throw e => [log_entry c e]
          end
      end
  end.
Proof.
  rewrite call_runs.
  destruct (ciphertext H c w); [destruct (channel w this) as [cl|]|];
    [destruct (sendRequest cl _ _ _)| |]; cbn; by rewrite ?app_nil_r.
Qed.

Lemma call_encrypted (H : Host) (this : nat) (c : Call) (w : World) :
  encrypted (snd (call H this c w)) =
  encrypted w ++ [JSON_stringify (spec_payload c w)].
Proof.
  rewrite call_runs.
  destruct (ciphertext H c w); [destruct (channel w this) as [cl|]|];
    [destruct (sendRequest cl _ _ _)| |]; reflexivity.
Qed.

(** A method of the six never rejects. *)
Lemma call_resolves (H : Host) (this : nat) (c : Call) (w : World) :
  exists v, fst (call H this c w) = Normal v.
Proof.
  rewrite call_result.
  destruct (ciphertext H c w); [destruct (channel w this) as [cl|]|];
    [destruct (sendRequest cl _ _ _)| |]; eauto.
Qed.

(** ** Calls without a channel *)

(** C1 (as stated, refuted). With no channel set, [query("foo")] resolves to
    [undefined], not to the empty sequence, and nothing is logged: the
    optional call [this.client?.sendRequest] evaluates to [undefined]
    without throwing, so the [catch] block is not entered. *)
Lemma query_without_channel_not_empty_array :
  channel (world_with None) 0 = None /\
  fst (query mock_host 0 "foo" (world_with None)) <> Normal empty_array /\
  fst (query mock_host 0 "foo" (world_with None)) = Normal VUndefined /\
  logged (snd (query mock_host 0 "foo" (world_with None))) = [].
Proof. repeat split; [discriminate]. Qed.

(** C1 (amended). For each of the six request kinds, when the channel
    handle is absent the call resolves without throwing and nothing is
    sent; if the encryption of the payload succeeds, nothing is logged and
    the result is [undefined] for every kind, the listing kinds included;
    only if the encryption itself rejects is the failure logged (once) and
    the sentinel of the kind returned. *)
Theorem absent_channel_resolves_undefined
    (H : Host) (this : nat) (c : Call) (w : World) :
  channel w this = None ->
  (exists v, fst (call H this c w) = Normal v) /\
  wire (snd (call H this c w)) = wire w /\
  match ciphertext H c w with
  | Normal _ =>
      fst (call H this c w) = Normal VUndefined /\
      logged (snd (call H this c w)) = logged w
  | Throw e =>
      fst (call H this c w) = Normal (spec_sentinel c) /\
      exists entry, logged (snd (call H this c w)) = logged w ++ [entry]
  end.
Proof.
  intros Hc. split; [apply call_resolves|].
  rewrite call_wire, call_result, call_logged, Hc.
  destruct (ciphertext H c w); rewrite !app_nil_r; eauto.
Qed.

Lemma absent_channel_resolves_undefined_witness :
  channel (world_with None) 0 = None /\
  fst (call mock_host 0 (CallQueryV2 "foo" vector) (world_with None)) =
    Normal VUndefined /\
  logged (snd (call mock_host 0 (CallQueryV2 "foo" vector) (world_with None))) = [] /\
  wire (snd (call mock_host 0 (CallQueryV2 "foo" vector) (world_with None))) = [].
Proof.
  pose proof (absent_channel_resolves_undefined mock_host 0
                (CallQueryV2 "foo" vector) (world_with None) eq_refl)
    as (_ & Hwire & Hres & Hlog).
  repeat split; assumption.
Defined.

(** ** Calls on a rejecting channel *)

(** When the transport rejects, the rejection is caught, one entry is added
    to the log and the sentinel of the kind is returned. *)
Lemma rejection_is_caught (H : Host) (this : nat) (c : Call) (w : World)
    (cl : LanguageClient) (s : string) (e : value) :
  channel w this = Some cl ->
  ciphertext H c w = Normal s ->
  sendRequest cl (wire w) (Call_RequestType c) s = Throw e ->
  fst (call H this c w) = Normal (spec_sentinel c) /\
  logged (snd (call H this c w)) = logged w ++ [log_entry c e].
Proof.
  intros Hc Hs He. by rewrite call_result, call_logged, Hc, Hs, He.
Qed.

(** The entry carries the name of the method, except in [queryV2]. *)
Lemma log_entry_names_method (c : Call) (e : value) :
  (forall q t, c <> CallQueryV2 q t) -> log_entry c e = spec_log_entry c e.
Proof. intros Hne. destruct c; try reflexivity. by destruct (Hne query0 target). Qed.

(** C2 (the code departs from the claim). A transport that rejects a
    [queryV2] request leaves the entry of [query] in the log: the entry
    cannot be told from the one [query] writes and is not the entry tagged
    [queryV2]. The sentinel is the empty sequence, as claimed. *)
Theorem queryV2_rejection_logged_as_query :
  fst (queryV2 mock_host 0 "foo" "bm25" (world_with (Some mock_reject))) =
    Normal empty_array /\
  logged (snd (queryV2 mock_host 0 "foo" "bm25" (world_with (Some mock_reject)))) =
    ["LspClient: query error: Error: boom"] /\
  logged (snd (queryV2 mock_host 0 "foo" "bm25" (world_with (Some mock_reject)))) =
    logged (snd (query mock_host 0 "foo" (world_with (Some mock_reject)))) /\
  logged (snd (queryV2 mock_host 0 "foo" "bm25" (world_with (Some mock_reject)))) <>
    [spec_log_entry (CallQueryV2 "foo" bm25) (VError "Error" "boom")].
Proof. repeat split. discriminate. Qed.

(** ** The bootstrap line *)

Lemma writeEncryptionInit_runs (H : Host) (stream : Writable) (w : World) :
  writeEncryptionInit H stream w =
  (Normal tt,
   with_streams
     (alter (fun cs => cs ++ [newline]) stream
        (alter (fun cs => cs ++ [spec_init_line (base64 (key H))]) stream
           (streams w))) w).
Proof.
  unfold writeEncryptionInit, Writable_write, bind, modify.
  by rewrite stringify_init_request.
Qed.

(** C4. On every output stream, [writeEncryptionInit] appends the JSON
    text of [{version: "1.0", mode: "JWT", key: <base64 of the key>}] and
    then one line feed, and touches no other stream; the key has 32 bytes,
    its base64 text 44 characters, and the JSON text holds no line feed, so
    what is written is exactly one line. In [activate] the stream is the
    standard input of the child just spawned, on which nothing was written
    before: the line is the first data on it. *)
Theorem writeEncryptionInit_writes_one_line
    (H : Host) (stream : Writable) (w : World) (ctx : ExtensionContext) :
  let line := spec_init_line (base64 (key H)) in
  let w' := snd (writeEncryptionInit H stream w) in
  length (key H) = 32 /\
  String.length (base64 (key H)) = 44 /\
  line = JSON_stringify (JObj [("version", JStr "1.0"); ("mode", JStr "JWT");
                               ("key", JStr (base64 (key H)))]) /\
  count_char "010"%char line = 0 /\
  count_char "010"%char (line +:+ newline) = 1 /\
  fst (writeEncryptionInit H stream w) = Normal tt /\
  streams w' !! stream =
    (fun written => written ++ [line; newline]) <$> streams w !! stream /\
  (forall other, other <> stream -> streams w' !! other = streams w !! other) /\
  exists child,
    last (children (snd (activate H ctx w))) = Some child /\
    streams (snd (activate H ctx w)) !! stdin child = Some [line; newline].
Proof.
  cbv zeta. split; [apply length_crypto_randomBytes|].
  split; [reflexivity|].
  split; [symmetry; apply stringify_init_request|].
  split; [apply init_line_no_newline|].
  split; [rewrite count_char_app, init_line_no_newline; reflexivity|].
  rewrite writeEncryptionInit_runs. cbn [fst snd streams with_streams].
  split; [reflexivity|]. split; [|split].
  - rewrite !list_lookup_alter_eq, <- option_fmap_compose.
    apply option_fmap_ext. intros written. cbn [compose].
    by rewrite <- app_assoc.
  - intros other Hne. by rewrite !list_lookup_alter_ne.
  - destruct (activate_spawns H ctx w)
      as (child & _ & Hchildren & Hstdin & Hstreams & _).
    exists child. rewrite Hchildren, Hstreams, Hstdin. split.
    + apply last_snoc.
    + by rewrite list_lookup_middle.
Qed.

(** ** The environment of the child *)

Lemma number_in_range (x : number) :
  number_gtb x 0 && number_ltb x 100 = true <->
  exists m e,
    number_value x = Some (m, e) /\ (0 < m < 100 * 10 ^ Z.of_nat e)%Z.
Proof.
  assert (Hfinite : forall m e,
            (0 * 10 ^ Z.of_nat e <? m)%Z && (m <? 100 * 10 ^ Z.of_nat e)%Z = true
            <-> (0 < m < 100 * 10 ^ Z.of_nat e)%Z).
  { intros m e. rewrite andb_true_iff, Z.ltb_lt, Z.ltb_lt. lia. }
  destruct x as [|negative|z|negative digits point];
    unfold number_gtb, number_ltb.
  - split; [discriminate|]. by intros (m & e & [=] & _).
  - split; [by destruct negative|]. by intros (m & e & [=] & _).
  - destruct (number_value (Integer z)) as [[m e]|] eqn:Hv; [|discriminate Hv].
    rewrite Hfinite. split; [by eauto|]. by intros (m' & e' & [= <- <-] & Hm).
  - destruct (number_value (Fraction negative digits point)) as [[m e]|] eqn:Hv.
    + rewrite Hfinite. split; [by eauto|].
      by intros (m' & e' & [= <- <-] & Hm).
    + split; [discriminate|]. by intros (m & e & [=] & _).
Qed.

Lemma number_toString_1_99 (z : Z) :
  (1 <= z <= 99)%Z -> number_toString (Integer z) = decimal_1_99 z.
Proof.
  intros Hz. rewrite <- (Z2Nat.id z) by lia.
  assert (Hn : 1 <= Z.to_nat z <= 99) by lia.
  generalize dependent (Z.to_nat z). clear. intros n Hn.
  destruct n as [|n]; [lia|].
  do 99 (destruct n as [|n]; [reflexivity|]). lia.
Qed.

(** C7 (as stated, refuted). The setting is a number, and the code tests
    [workerThreads > 0 && workerThreads < 100] and nothing else: with the
    setting 0.5, which is no integer from 1 to 99, the variable is set, to
    the text [0.5], in the process and in the child. *)
Lemma worker_threads_half_sets_the_variable :
  number_value (Fraction false 5 0) = Some (5%Z, 1) /\
  ~ (exists z, (1 <= z <= 99)%Z /\ (5 = z * 10 ^ 1)%Z) /\
  process_env
    (snd (activate mock_host mock_context
            (with_indexWorkerThreads (Fraction false 5 0) world0)))
    !! "Q_WORKER_THREADS" = Some "0.5" /\
  exists child,
    last (children
            (snd (activate mock_host mock_context
                    (with_indexWorkerThreads (Fraction false 5 0) world0)))) =
      Some child /\
    spawn_env child !! "Q_WORKER_THREADS" = Some "0.5".
Proof.
  split; [reflexivity|]. split; [intros (z & Hz & Heq); lia|].
  split; [vm_compute; reflexivity|].
  eexists. split; [reflexivity|]. vm_compute. reflexivity.
Qed.

(** C7 (amended). The child is spawned with the environment of the process
    as [activate] leaves it. [Q_WORKER_THREADS] is set exactly when the
    setting is a number strictly between 0 and 100, and then to the text
    [toString] gives of it; for an integer setting that is exactly from 1
    to 99, and the text is its decimal digits (50 gives [50]; 0 and 150
    leave the variable unset); a setting in between that is not an integer
    sets it too (0.5 gives [0.5]). [Q_ENABLE_GPU] is set (to [true]) exactly when the GPU
    setting is on. Otherwise the variable is absent from the environment,
    whatever it held before. *)
Theorem activate_environment (H : Host) (ctx : ExtensionContext) (w : World) :
  let x := indexWorkerThreads w in
  exists child,
    last (children (snd (activate H ctx w))) = Some child /\
    spawn_env child = process_env (snd (activate H ctx w)) /\
    (is_Some (spawn_env child !! "Q_WORKER_THREADS") <->
     exists m e,
       number_value x = Some (m, e) /\ (0 < m < 100 * 10 ^ Z.of_nat e)%Z) /\
    (forall text,
       spawn_env child !! "Q_WORKER_THREADS" = Some text ->
       text = number_toString x) /\
    (forall z,
       x = Integer z ->
       spawn_env child !! "Q_WORKER_THREADS" =
         if bool_decide (1 <= z <= 99)%Z then Some (decimal_1_99 z) else None) /\
    (x = Integer 0 -> spawn_env child !! "Q_WORKER_THREADS" = None) /\
    (x = Integer 50 -> spawn_env child !! "Q_WORKER_THREADS" = Some "50") /\
    (x = Integer 150 -> spawn_env child !! "Q_WORKER_THREADS" = None) /\
    (x = Fraction false 5 0 ->
     spawn_env child !! "Q_WORKER_THREADS" = Some "0.5") /\
    spawn_env child !! "Q_ENABLE_GPU" =
      (if localIndexGPUEnabled w then Some "true" else None) /\
    (is_Some (spawn_env child !! "Q_ENABLE_GPU") <-> localIndexGPUEnabled w = true).
Proof.
  cbv zeta.
  destruct (activate_spawns H ctx w)
    as (child & _ & Hchildren & _ & _ & Henv & Hprocess).
  exists child. rewrite Hchildren, <- Henv.
  split; [apply last_snoc|]. split; [reflexivity|].
  assert (Hthreads :
    spawn_env child !! "Q_WORKER_THREADS" =
    if number_gtb (indexWorkerThreads w) 0 && number_ltb (indexWorkerThreads w) 100
    then Some (number_toString (indexWorkerThreads w)) else None).
  { rewrite Henv, Hprocess. cbv zeta.
    destruct (number_gtb _ 0 && number_ltb _ 100), (localIndexGPUEnabled w);
      by simplify_map_eq. }
  assert (Hgpu :
    spawn_env child !! "Q_ENABLE_GPU" =
    if localIndexGPUEnabled w then Some "true" else None).
  { rewrite Henv, Hprocess. cbv zeta.
    destruct (number_gtb _ 0 && number_ltb _ 100), (localIndexGPUEnabled w);
      by simplify_map_eq. }
  assert (Hinteger : forall z,
    indexWorkerThreads w = Integer z ->
    spawn_env child !! "Q_WORKER_THREADS" =
    if bool_decide (1 <= z <= 99)%Z then Some (decimal_1_99 z) else None).
  { intros z Hz. rewrite Hthreads, Hz.
    case_bool_decide as Hrange.
    - rewrite number_toString_1_99 by exact Hrange.
      replace (number_gtb (Integer z) 0 && number_ltb (Integer z) 100) with true;
        [reflexivity|].
      symmetry. apply number_in_range. exists z, 0. split; [reflexivity|].
      cbn. lia.
    - destruct (number_gtb (Integer z) 0 && number_ltb (Integer z) 100) eqn:Hin;
        [|reflexivity].
      apply number_in_range in Hin as (m & e & [= <- <-] & Hm).
      cbn in Hm. lia. }
  split.
  { rewrite Hthreads, <- number_in_range.
    destruct (number_gtb _ 0 && number_ltb _ 100); split;
      [eauto|done|by intros [? [=]]|discriminate]. }
  split.
  { intros text. rewrite Hthreads.
    destruct (number_gtb _ 0 && number_ltb _ 100); [by intros [= <-]|discriminate]. }
  split; [exact Hinteger|].
  split; [intros Hx; by rewrite (Hinteger _ Hx)|].
  split; [intros Hx; by rewrite (Hinteger _ Hx)|].
  split; [intros Hx; by rewrite (Hinteger _ Hx)|].
  split; [intros Hx; rewrite Hthreads, Hx; reflexivity|].
  split; [exact Hgpu|].
  rewrite Hgpu. destruct (localIndexGPUEnabled w); split;
    [done|eauto|by intros [? [=]]|discriminate].
Qed.

(** The scenarios of the specification: 0 and 150 leave the variable
    unset, 50 sets it to the text [50]. *)
Example activate_worker_threads_scenarios :
  let env n :=
    process_env (snd (activate mock_host mock_context
                        (with_indexWorkerThreads (Integer n)
                           (with_process_env
                              (<["Q_WORKER_THREADS" := "8"]> ∅) world0)))) in
  env 0%Z !! "Q_WORKER_THREADS" = None /\
  env 50%Z !! "Q_WORKER_THREADS" = Some "50" /\
  env 150%Z !! "Q_WORKER_THREADS" = None.
Proof. cbv zeta. repeat split; vm_compute; reflexivity. Qed.

(** ** What goes over the channel *)

(** [getLspServerUsage], by cases on the channel. *)
Lemma getLspServerUsage_runs (this : nat) (w : World) :
  getLspServerUsage this w =
  match channel w this with
  | None => (Normal VUndefined, w)
  | Some cl =>
      (sendRequest cl (wire w) GetUsageRequestType "",
       after_send (GetUsageRequestType, "") w)
  end.
Proof.
  unfold getLspServerUsage, this_client, client_sendRequest, bind, gets,
    modify, await, ret.
  destruct (channel w this); reflexivity.
Qed.

(** C5. Each of the six kinds gives the JSON text of its payload to
    [encrypt], and the only request it may put on the channel carries the
    compact JWE that [jose] returned for the UTF-8 bytes of that text under
    the header [dir]/[A256GCM] and the session key; [getLspServerUsage]
    encrypts nothing and sends the empty text as it is. *)
Theorem payloads_are_encrypted_before_sending
    (H : Host) (this : nat) (c : Call) (w : World) :
  encrypted (snd (call H this c w)) =
    encrypted w ++ [JSON_stringify (spec_payload c w)] /\
  wire (snd (call H this c w)) =
    wire w ++
    match
      jose_CompactEncrypt H {| alg := "dir"; enc := "A256GCM" |} (key H)
        (TextEncoder_encode (JSON_stringify (spec_payload c w)))
        (length (encrypted w)),
      channel w this
    with
    | Normal jwe, Some _ => [(Call_RequestType c, jwe)]
    | _, _ => []
    end /\
  encrypted (snd (getLspServerUsage this w)) = encrypted w /\
  wire (snd (getLspServerUsage this w)) =
    wire w ++
    match channel w this with
    | Some _ => [(GetUsageRequestType, "")]
    | None => []
    end.
Proof.
  split; [apply call_encrypted|]. split; [apply call_wire|].
  rewrite getLspServerUsage_runs.
  destruct (channel w this); cbn; by rewrite ?app_nil_r.
Qed.

(** C6. [getLspServerUsage] sends its request only when the channel handle
    is present, and then sends exactly that one, its outcome being the
    outcome of the transport; when the handle is absent it returns
    [undefined] and leaves the world as it was. It never logs, not even
    when the transport rejects, in which case the rejection reaches the
    caller; the six other kinds catch that rejection and log it. *)
Theorem getLspServerUsage_only_with_channel
    (H : Host) (this : nat) (w : World) :
  match channel w this with
  | None => getLspServerUsage this w = (Normal VUndefined, w)
  | Some cl =>
      fst (getLspServerUsage this w) =
        sendRequest cl (wire w) GetUsageRequestType "" /\
      wire (snd (getLspServerUsage this w)) =
        wire w ++ [(GetUsageRequestType, "")] /\
      forall (c : Call) (jwe : string) (e : value),
        ciphertext H c w = Normal jwe ->
        sendRequest cl (wire w) (Call_RequestType c) jwe = Throw e ->
        exists entry, logged (snd (call H this c w)) = logged w ++ [entry]
  end /\
  logged (snd (getLspServerUsage this w)) = logged w.
Proof.
  rewrite getLspServerUsage_runs.
  destruct (channel w this) as [cl|] eqn:Hc; cbn; [|done].
  repeat split. intros c jwe e Hs He.
  exists (log_entry c e). by rewrite call_logged, Hs, Hc, He.
Qed.

(** ** The language of [indexFilesV2] *)

(** C9. [indexFilesV2] takes the paths and the root only; the payload it
    builds and encrypts has for [language] the [languageId] of the document
    of the active editor, and the text [plaintext] when there is no active
    editor. *)
Theorem indexFilesV2_language_from_editor
    (H : Host) (this : nat) (paths : list string) (rootPath : string)
    (w : World) :
  let language :=
    match activeTextEditor w with
    | Some editor => languageId (document editor)
    | None => "plaintext"
    end in
  encrypted (snd (indexFilesV2 H this paths rootPath w)) =
    encrypted w ++
    [JSON_stringify
       (JObj [("filePaths", JArr (map JStr paths));
              ("projectRoot", JStr rootPath);
              ("config", JStr "all");
              ("language", JStr language)])].
Proof. exact (call_encrypted H this (CallIndexFilesV2 paths rootPath) w). Qed.

(** ** The targets of [queryV2] *)

(** C10. For each target of the declared type, [queryV2] over a channel
    sends exactly one request, under the tag of the target, and its payload
    is the encryption of [{filePath}] for [codemap] and of [{query}] for
    the two others; the outcome and the log are those of the transport
    alone, so the branch that throws [invalid target] is never taken. *)
Theorem queryV2_dispatches_on_target
    (H : Host) (this : nat) (q : string) (target : Target) (w : World)
    (cl : LanguageClient) (jwe : string) :
  let payload :=
    match target with
    | codemap => JObj [("filePath", JStr q)]
    | _ => JObj [("query", JStr q)]
    end in
  let tag :=
    match target with
    | bm25 => QueryBM25IndexRequestType
    | vector => QueryVectorIndexRequestType
    | codemap => QueryCodeMapIndexRequestType
    end in
  let w' := snd (queryV2 H this q (Target_string target) w) in
  channel w this = Some cl ->
  jose_CompactEncrypt H {| alg := "dir"; enc := "A256GCM" |} (key H)
    (TextEncoder_encode (JSON_stringify payload)) (length (encrypted w)) =
    Normal jwe ->
  encrypted w' = encrypted w ++ [JSON_stringify payload] /\
  wire w' = wire w ++ [(tag, jwe)] /\
  match sendRequest cl (wire w) tag jwe with
  | Normal v =>
      fst (queryV2 H this q (Target_string target) w) = Normal v /\
      logged w' = logged w
  | Throw e =>
      fst (queryV2 H this q (Target_string target) w) = Normal empty_array /\
      logged w' = logged w ++ ["LspClient: query error: " +:+ ToString e]
  end.
Proof.
  cbv zeta. intros Hc Hs.
  change (queryV2 H this q (Target_string target) w)
    with (call H this (CallQueryV2 q target) w).
  assert (Hs' : ciphertext H (CallQueryV2 q target) w = Normal jwe)
    by (destruct target; exact Hs).
  rewrite call_encrypted, call_wire, call_result, call_logged, Hs', Hc.
  destruct target;
    (split; [reflexivity|]); (split; [reflexivity|]);
    cbn [Call_RequestType Target_RequestType];
    destruct (sendRequest cl _ _ _); by rewrite ?app_nil_r.
Qed.

Lemma queryV2_dispatches_on_target_witness :
  wire (snd (queryV2 mock_host 0 "src/a.ts" "codemap"
               (world_with (Some mock_echo)))) =
  [(QueryCodeMapIndexRequestType,
    "dir.A256GCM.0.{" +:+ quoted "filePath" +:+ ":" +:+ quoted "src/a.ts" +:+ "}")].
Proof.
  pose proof (queryV2_dispatches_on_target mock_host 0 "src/a.ts" codemap
                (world_with (Some mock_echo)) mock_echo _ eq_refl eq_refl)
    as (_ & Hwire & _).
  exact Hwire.
Defined.

(** A text outside the declared type does reach the last branch: nothing
    is sent, the error is caught and logged. *)
Example queryV2_undeclared_target :
  wire (snd (queryV2 mock_host 0 "foo" "zzz" (world_with (Some mock_echo)))) = [] /\
  fst (queryV2 mock_host 0 "foo" "zzz" (world_with (Some mock_echo))) =
    Normal empty_array /\
  logged (snd (queryV2 mock_host 0 "foo" "zzz" (world_with (Some mock_echo)))) =
    ["LspClient: query error: Error: invalid target: zzz"].
Proof. repeat split. Qed.

(** ** One key, one client *)

Lemma LspClient_instance_runs (w : World) :
  one_instance w ->
  fst (LspClient_instance w) = Normal 0 /\
  static_instance (snd (LspClient_instance w)) = Some 0 /\
  length (heap (snd (LspClient_instance w))) = 1.
Proof.
  unfold LspClient_instance, LspClient_new, bind, gets, modify, ret.
  intros [[Hi Hh]|[Hi Hh]]; rewrite Hi; cbn; rewrite ?Hh; done.
Qed.

Lemma one_instance_after_access (w : World) :
  one_instance w -> one_instance (snd (LspClient_instance w)).
Proof. intros Hw. right. by apply LspClient_instance_runs. Qed.

(** An operation that leaves the objects alone keeps the invariant. *)
Lemma one_instance_frame (w w' : World) :
  static_instance w' = static_instance w -> heap w' = heap w ->
  one_instance w -> one_instance w'.
Proof. unfold one_instance. by intros -> ->. Qed.

Lemma call_objects (H : Host) (this : nat) (c : Call) (w : World) :
  static_instance (snd (call H this c w)) = static_instance w /\
  heap (snd (call H this c w)) = heap w.
Proof.
  rewrite call_runs.
  destruct (ciphertext H c w); [destruct (channel w this) as [cl|]|];
    [destruct (sendRequest cl _ _ _)| |]; done.
Qed.

Lemma getLspServerUsage_objects (this : nat) (w : World) :
  static_instance (snd (getLspServerUsage this w)) = static_instance w /\
  heap (snd (getLspServerUsage this w)) = heap w.
Proof. rewrite getLspServerUsage_runs. by destruct (channel w this). Qed.

Lemma one_instance_activate (H : Host) (ctx : ExtensionContext) (w : World) :
  one_instance w -> one_instance (snd (activate H ctx w)).
Proof.
  intros Hw. right. revert Hw.
  unfold activate, writeEncryptionInit, LspClient_instance, LspClient_new,
    set_client, spawn, setenv, unsetenv, Writable_write, bind, gets, modify, ret.
  destruct (localIndexGPUEnabled w) eqn:Hg,
    (number_gtb (indexWorkerThreads w) 0 && number_ltb (indexWorkerThreads w) 100) eqn:Ht;
    intros [[Hi Hh]|[Hi Hh]];
    repeat (progress (cbn -[JSON_stringify base64 key number_gtb number_ltb number_toString];
                      rewrite ?Hi, ?Hg, ?Ht, ?Hh));
    by rewrite ?length_insert.
Qed.

Lemma one_instance_deactivate (w : World) :
  one_instance w -> one_instance (snd (deactivate w)).
Proof.
  intros Hw. destruct (LspClient_instance_runs w Hw) as (Hr & Hi & Hh).
  assert (Hw' : one_instance (snd (LspClient_instance w))) by (by right).
  unfold deactivate, bind, this_client, gets, await, ret, throw.
  destruct (LspClient_instance w) as [r w1] eqn:Hrun. cbn in Hr, Hi, Hh, Hw'.
  subst r. destruct (channel w1 0) as [cl|] eqn:Hc; [|done].
  assert (Hsame : LspClient_instance w1 = (Normal 0, w1)).
  { unfold LspClient_instance, bind, gets, ret. by rewrite Hi. }
  rewrite Hsame, Hc. by destruct (stop cl).
Qed.

Lemma one_instance_perform (H : Host) (op : Op) (w : World) :
  one_instance w -> one_instance (snd (perform H op w)).
Proof.
  intros Hw. pose proof (one_instance_after_access w Hw) as Hw'.
  destruct (LspClient_instance_runs w Hw) as (Hr & _).
  destruct op as [|ctx| |c| |stream|editor|threads gpu]; unfold perform, bind.
  - destruct (LspClient_instance w) as [r w1]. cbn in Hr. by subst r.
  - pose proof (one_instance_activate H ctx w Hw) as Ha.
    by destruct (activate H ctx w) as [[[]|e] w1].
  - by apply one_instance_deactivate.
  - destruct (LspClient_instance w) as [r w1]. cbn in Hr, Hw'. subst r.
    destruct (call_objects H 0 c w1). by eapply one_instance_frame.
  - destruct (LspClient_instance w) as [r w1]. cbn in Hr, Hw'. subst r.
    destruct (getLspServerUsage_objects 0 w1). by eapply one_instance_frame.
  - by rewrite writeEncryptionInit_runs.
  - done.
  - done.
Qed.

Lemma one_instance_run (H : Host) (ops : list Op) (w : World) :
  one_instance w -> one_instance (run H ops w).
Proof.
  unfold run. revert w.
  induction ops as [|op ops IH]; intros w Hw; [done|].
  cbn [fold_left]. by apply IH, one_instance_perform.
Qed.

(** The static field, once set, stays set. *)
Lemma static_instance_perform (H : Host) (op : Op) (w : World) (this : nat) :
  static_instance w = Some this ->
  static_instance (snd (perform H op w)) = Some this.
Proof.
  intros Hs.
  assert (Hget : LspClient_instance w = (Normal this, w)).
  { unfold LspClient_instance, bind, gets, ret. by rewrite Hs. }
  destruct op as [|ctx| |c| |stream|editor|threads gpu]; unfold perform, bind.
  - by rewrite Hget.
  - unfold activate, writeEncryptionInit, LspClient_instance, LspClient_new,
      set_client, spawn, setenv, unsetenv, Writable_write, bind, gets, modify, ret.
    destruct (localIndexGPUEnabled w) eqn:Hg,
      (number_gtb (indexWorkerThreads w) 0 && number_ltb (indexWorkerThreads w) 100) eqn:Ht;
      repeat (progress (cbn -[JSON_stringify base64 key number_gtb number_ltb number_toString];
                        rewrite ?Hs, ?Hg, ?Ht)); done.
  - unfold deactivate, this_client, bind, gets, ret, await, throw.
    rewrite Hget. destruct (channel w this) as [cl|] eqn:Hc; [|done].
    by rewrite Hget, Hc.
  - rewrite Hget. by destruct (call_objects H this c w) as [-> _].
  - rewrite Hget. by destruct (getLspServerUsage_objects this w) as [-> _].
  - by rewrite writeEncryptionInit_runs.
  - done.
  - done.
Qed.

Lemma static_instance_run (H : Host) (ops : list Op) (w : World) (this : nat) :
  static_instance w = Some this -> static_instance (run H ops w) = Some this.
Proof.
  unfold run. revert w.
  induction ops as [|op ops IH]; intros w Hs; [done|].
  cbn [fold_left]. by apply IH, static_instance_perform.
Qed.

(** C8. The session key is the one value [key], of 32 bytes, bound when
    the module loads: every [encrypt] gives that key to [jose], and
    [writeEncryptionInit] writes the base64 text of that key. From a world
    in which the module has just been loaded, whatever the extension does
    before and after, two accesses to [LspClient.instance] return the same
    object, and that object is the only [LspClient] there is. *)
Theorem one_key_one_client
    (H : Host) (w0 : World) (before after : list Op) :
  static_instance w0 = None ->
  heap w0 = [] ->
  let w1 := run H before w0 in
  let first := LspClient_instance w1 in
  let w2 := run H after (snd first) in
  let second := LspClient_instance w2 in
  length (key H) = 32 /\
  (forall payload w,
     fst (encrypt H payload w) =
     jose_CompactEncrypt H {| alg := "dir"; enc := "A256GCM" |} (key H)
       (TextEncoder_encode payload) (length (encrypted w))) /\
  (forall stream w,
     streams (snd (writeEncryptionInit H stream w)) !! stream =
     (fun written => written ++ [spec_init_line (base64 (key H)); newline])
       <$> streams w !! stream) /\
  (exists this, fst first = Normal this /\ fst second = Normal this) /\
  length (heap w1) <= 1 /\
  length (heap (snd first)) = 1 /\
  length (heap w2) = 1 /\
  length (heap (snd second)) = 1.
Proof.
  intros Hi Hh. cbv zeta.
  assert (H0 : one_instance w0) by (by left).
  pose proof (one_instance_run H before w0 H0) as H1.
  pose proof (one_instance_after_access _ H1) as H1'.
  pose proof (one_instance_run H after _ H1') as H2.
  destruct (LspClient_instance_runs _ H1) as (Hr1 & Hs1 & Hl1).
  destruct (LspClient_instance_runs _ H2) as (Hr2 & _ & Hl2).
  split; [apply length_crypto_randomBytes|].
  split; [reflexivity|]. split.
  { intros stream w. rewrite writeEncryptionInit_runs.
    cbn [snd streams with_streams].
    rewrite !list_lookup_alter_eq, <- option_fmap_compose.
    apply option_fmap_ext. intros written. cbn [compose].
    by rewrite <- app_assoc. }
  split; [by exists 0|].
  split; [destruct H1 as [[_ ->]|[_ ->]]; cbn; lia|].
  split; [done|]. split; [|done].
  pose proof (static_instance_run H after _ 0 Hs1) as Hs2.
  destruct H2 as [[Hnone _]|[_ Hlen]]; [congruence|done].
Qed.

Lemma one_key_one_client_witness :
  let before := [OpCall (CallQuery "foo"); OpActivate mock_context] in
  let after := [OpGetLspServerUsage; OpDeactivate] in
  let w1 := run mock_host before world0 in
  let w2 := run mock_host after (snd (LspClient_instance w1)) in
  static_instance world0 = None /\
  heap world0 = [] /\
  length (key mock_host) = 32 /\
  (exists this,
     fst (LspClient_instance w1) = Normal this /\
     fst (LspClient_instance w2) = Normal this) /\
  length (heap w2) = 1.
Proof.
  cbv zeta.
  pose proof (one_key_one_client mock_host world0
                [OpCall (CallQuery "foo"); OpActivate mock_context]
                [OpGetLspServerUsage; OpDeactivate] eq_refl eq_refl)
    as (Hkey & _ & _ & Hsame & _ & _ & Hone & _).
  repeat split; assumption.
Defined.

(** * Further properties *)

(** ** The suggestion session *)

Lemma recommendations_at_Some (s : CodeWhispererSession) (index : Z) :
  is_Some (recommendations_at s index) <->
  (0 <= index < Z.of_nat (length (recommendations s)))%Z.
Proof.
  unfold recommendations_at.
  destruct (Z.ltb_spec index 0) as [Hneg|Hpos].
  - split; [intros [? [=]]|lia].
  - rewrite lookup_lt_is_Some. lia.
Qed.

(** X1. Writing the state of the suggestion at an index of the array and
    reading it back gives the value written. The write goes to the object
    the array refers to at that index: every index that refers to the same
    object reads the new value, every other index reads what it read
    before, and no completion type changes. *)
Theorem setSuggestionState_then_get
    (m : Memory) (index : Z) (value : string) (r : nat) :
  recommendations_at (this_session m) index = Some r ->
  let m' := snd (setSuggestionState index value m) in
  fst (setSuggestionState index value m) = Normal tt /\
  getSuggestionState index m' = Normal (Some value) /\
  this_session m' = this_session m /\
  (forall j r',
     recommendations_at (this_session m) j = Some r' ->
     getSuggestionState j m' =
       if Nat.eqb r' r then Normal (Some value) else getSuggestionState j m) /\
  (forall j, getCompletionType j m' = getCompletionType j m).
Proof.
  intros Hr. cbv zeta. unfold setSuggestionState. rewrite Hr. cbn [fst snd].
  unfold getSuggestionState, getCompletionType. cbn [this_session objects].
  rewrite Hr. unfold write_suggestionState. rewrite Nat.eqb_refl.
  repeat split.
  - intros j r' Hj. rewrite Hj. by destruct (Nat.eqb r' r).
  - intros j. destruct (recommendations_at (this_session m) j) as [r'|]; [|done].
    by destruct (Nat.eqb r' r).
Qed.

(** A session whose first and third suggestions are one object. *)
Lemma setSuggestionState_then_get_witness :
  let m :=
    {| this_session :=
         {| sessionId := "s"; requestIdList := [];
            startPos := {| line := 0; character := 0 |};
            leftContextOfCurrentLine := "";
            requestContext_request := JObj [];
            requestContext_supplementalMetadata := None;
            language := "java"; taskType := None;
            recommendations := [0; 1; 0];
            fetchCredentialStartTime := 0; sdkApiCallStartTime := 0;
            invokeSuggestionStartTime := 0 |};
       objects := fun _ => {| suggestionState := None; completionType := "Line";
                              otherProperties := JNull |} |} in
  let m' := snd (setSuggestionState 0 "Showed" m) in
  getSuggestionState 0 m' = Normal (Some "Showed") /\
  getSuggestionState 1 m' = Normal None /\
  getSuggestionState 2 m' = Normal (Some "Showed").
Proof.
  cbv zeta.
  match goal with
  | |- context [setSuggestionState 0 "Showed" ?m] =>
      pose proof (setSuggestionState_then_get m 0 "Showed" 0 eq_refl)
        as (_ & H0 & _ & Hothers & _)
  end.
  split; [exact H0|].
  split; [exact (Hothers 1%Z 1 eq_refl)|exact (Hothers 2%Z 0 eq_refl)].
Defined.

(** X2. No method checks its index. At a negative index, or one past the
    end of the array (any index when the array is empty), the three
    accessors throw a [TypeError] and the session and the suggestions stay
    as they were; at an index of the array none of them throws. *)
Theorem suggestion_index_out_of_range
    (m : Memory) (index : Z) (value : string) :
  (index < 0 \/ Z.of_nat (length (recommendations (this_session m))) <= index)%Z ->
  (exists message,
     setSuggestionState index value m = (Throw (VError "TypeError" message), m)) /\
  (exists message,
     getSuggestionState index m = Throw (VError "TypeError" message)) /\
  (exists message,
     getCompletionType index m = Throw (VError "TypeError" message)) /\
  forall inside,
    (0 <= inside < Z.of_nat (length (recommendations (this_session m))))%Z ->
    fst (setSuggestionState inside value m) = Normal tt /\
    (exists state, getSuggestionState inside m = Normal state) /\
    (exists type, getCompletionType inside m = Normal type).
Proof.
  intros Hout.
  assert (Hnone : recommendations_at (this_session m) index = None).
  { destruct (recommendations_at (this_session m) index) eqn:Hat; [|done].
    assert (His : is_Some (recommendations_at (this_session m) index)) by eauto.
    apply recommendations_at_Some in His. lia. }
  unfold setSuggestionState, getSuggestionState, getCompletionType.
  rewrite Hnone. repeat split; eauto.
  all: apply recommendations_at_Some in H as [r ->]; eauto.
Qed.

Lemma suggestion_index_out_of_range_witness :
  let m := {| this_session := CodeWhispererSession_new;
              objects := fun _ => {| suggestionState := None;
                                     completionType := "Line";
                                     otherProperties := JNull |} |} in
  exists message, getSuggestionState 0 m = Throw (VError "TypeError" message).
Proof.
  cbv zeta.
  match goal with
  | |- context [getSuggestionState 0 ?m] =>
      pose proof (suggestion_index_out_of_range m 0 "Accept"
                    (or_intror (Z.le_refl 0))) as (_ & Hget & _)
  end.
  exact Hget.
Defined.

(** ** The start times *)

Lemma timing_step_ordered (s : CodeWhispererSession) (c : TimingCall) :
  timing_ordered s -> timing_ordered (timing_step s c).
Proof.
  unfold timing_ordered. intros [Hsdk Hfetch].
  destruct c as [now|now]; cbn [timing_step];
    unfold setFetchCredentialStart, setSdkApiCallStart.
  - destruct (Z.eqb_spec (fetchCredentialStartTime s) 0) as [Hf|Hf];
      destruct (Z.eqb_spec (invokeSuggestionStartTime s) 0) as [Hi|Hi];
      cbn; try done.
    split; [|done]. intros Hs. destruct (Hsdk Hs Hf).
  - destruct (Z.eqb_spec (sdkApiCallStartTime s) 0) as [Hs|Hs];
      destruct (Z.eqb_spec (fetchCredentialStartTime s) 0) as [Hf|Hf];
      cbn; done.
Qed.

Lemma timing_step_keeps (s : CodeWhispererSession) (c : TimingCall) :
  invokeSuggestionStartTime (timing_step s c) = invokeSuggestionStartTime s /\
  recommendations (timing_step s c) = recommendations s /\
  (fetchCredentialStartTime s <> 0%Z ->
   fetchCredentialStartTime (timing_step s c) = fetchCredentialStartTime s) /\
  (sdkApiCallStartTime s <> 0%Z ->
   sdkApiCallStartTime (timing_step s c) = sdkApiCallStartTime s).
Proof.
  destruct c as [now|now]; cbn [timing_step];
    unfold setFetchCredentialStart, setSdkApiCallStart.
  - destruct (Z.eqb_spec (fetchCredentialStartTime s) 0) as [Hf|Hf];
      destruct (negb _); cbn; done.
  - destruct (Z.eqb_spec (sdkApiCallStartTime s) 0) as [Hs|Hs];
      destruct (negb _); cbn; done.
Qed.

(** X3. Through any sequence of calls of [setFetchCredentialStart] and
    [setSdkApiCallStart], whatever the clock reads: the start of the SDK
    call is recorded only if the start of the credential fetch is, and that
    one only if the start of the invocation is; a start time that is
    recorded is never overwritten (the first reading stays); and while no
    invocation has started, nothing is recorded at all. *)
Theorem start_times_are_ordered_and_kept
    (s : CodeWhispererSession) (calls : list TimingCall) :
  timing_ordered s ->
  let s' := fold_left timing_step calls s in
  timing_ordered s' /\
  (fetchCredentialStartTime s <> 0%Z ->
   fetchCredentialStartTime s' = fetchCredentialStartTime s) /\
  (sdkApiCallStartTime s <> 0%Z ->
   sdkApiCallStartTime s' = sdkApiCallStartTime s) /\
  (invokeSuggestionStartTime s = 0%Z ->
   fetchCredentialStartTime s' = 0%Z /\ sdkApiCallStartTime s' = 0%Z).
Proof.
  cbv zeta. revert s.
  induction calls as [|c calls IH]; intros s Hs; cbn [fold_left].
  - split; [exact Hs|]. destruct Hs as [Hsdk Hfetch].
    split; [done|]. split; [done|]. intros Hinvoke.
    assert (Hf : fetchCredentialStartTime s = 0%Z).
    { destruct (Z.eq_dec (fetchCredentialStartTime s) 0%Z) as [|Hne]; [done|].
      by destruct (Hfetch Hne). }
    split; [exact Hf|].
    destruct (Z.eq_dec (sdkApiCallStartTime s) 0%Z) as [|Hne]; [done|].
    by destruct (Hsdk Hne).
  - destruct (IH _ (timing_step_ordered s c Hs)) as (Hord & Hf & Hk & Hz).
    destruct (timing_step_keeps s c) as (Hinv & _ & Hf1 & Hk1).
    split; [exact Hord|]. split; [|split].
    + intros Hne. rewrite Hf; rewrite (Hf1 Hne); done.
    + intros Hne. rewrite Hk; rewrite (Hk1 Hne); done.
    + intros H0. apply Hz. by rewrite Hinv.
Qed.

Lemma start_times_are_ordered_and_kept_witness :
  let s := {| sessionId := ""; requestIdList := [];
              startPos := {| line := 0; character := 0 |};
              leftContextOfCurrentLine := "";
              requestContext_request := JObj [];
              requestContext_supplementalMetadata := None;
              language := "java"; taskType := None; recommendations := [];
              fetchCredentialStartTime := 0; sdkApiCallStartTime := 0;
              invokeSuggestionStartTime := 5 |} in
  let s' :=
    fold_left timing_step
      [CallSetSdkApiCallStart 6; CallSetFetchCredentialStart 7;
       CallSetFetchCredentialStart 8; CallSetSdkApiCallStart 9] s in
  timing_ordered s' /\
  fetchCredentialStartTime s' = 7%Z /\ sdkApiCallStartTime s' = 9%Z.
Proof.
  cbv zeta.
  match goal with
  | |- context [fold_left timing_step ?calls ?s] =>
      assert (Hs : timing_ordered s) by (split; cbn; intros Hne; done);
      pose proof (start_times_are_ordered_and_kept s calls Hs) as (Hord & _)
  end.
  split; [exact Hord|]. split; reflexivity.
Defined.

(** ** Outcomes of the requests *)

Lemma LspClient_instance_present (w : World) (this : nat) :
  static_instance w = Some this -> LspClient_instance w = (Normal this, w).
Proof.
  intros Hs. unfold LspClient_instance, bind, gets, ret. by rewrite Hs.
Qed.

Lemma queryV2_resolves (H : Host) (this : nat) (q target : string) (w : World) :
  exists v, fst (queryV2 H this q target w) = Normal v.
Proof.
  unfold queryV2, try_catch, bind, encrypt, gets, modify, await, this_client,
    optional_sendRequest, client_sendRequest, Logger_error, ret, throw.
  cbv beta zeta.
  cbn -[JSON_stringify String.append ToString channel key TextEncoder_encode
        String.eqb].
  destruct (jose_CompactEncrypt H _ _ _ _) as [jwe|e]; [|by eauto].
  match goal with
  | |- context [channel ?w' this] => destruct (channel w' this) as [cl|]
  end;
    destruct (String.eqb target "bm25"), (String.eqb target "vector"),
      (String.eqb target "codemap");
    cbn -[JSON_stringify String.append ToString key TextEncoder_encode];
    try (destruct (sendRequest cl _ _ _)); eauto.
Qed.

(** X4. None of the six request methods ever rejects, whatever [jose] and
    the transport answer and whether a channel is set or not; [queryV2]
    resolves even for a target outside its declared type. Only
    [getLspServerUsage] can reject, and it does exactly when a channel is
    set and the transport rejects its request. *)
Theorem requests_never_reject (H : Host) (this : nat) (w : World) :
  (forall c, exists v, fst (call H this c w) = Normal v) /\
  (forall q target, exists v, fst (queryV2 H this q target w) = Normal v) /\
  (forall e,
     fst (getLspServerUsage this w) = Throw e <->
     exists cl,
       channel w this = Some cl /\
       sendRequest cl (wire w) GetUsageRequestType "" = Throw e).
Proof.
  split; [intros c; apply call_resolves|].
  split; [intros q target; apply queryV2_resolves|].
  intros e. rewrite getLspServerUsage_runs.
  destruct (channel w this) as [cl|]; cbn [fst]; split.
  - intros He. by exists cl.
  - by intros (cl' & [= <-] & He).
  - intros [=].
  - by intros (cl' & [=] & _).
Qed.

(** X5. Over a channel that resolves the request, a method of the six
    returns the response as it came, whatever it is, logs nothing and has
    sent exactly the one request, under the tag of its kind. *)
Theorem response_is_returned
    (H : Host) (this : nat) (c : Call) (w : World)
    (cl : LanguageClient) (jwe : string) (v : value) :
  channel w this = Some cl ->
  ciphertext H c w = Normal jwe ->
  sendRequest cl (wire w) (Call_RequestType c) jwe = Normal v ->
  fst (call H this c w) = Normal v /\
  logged (snd (call H this c w)) = logged w /\
  wire (snd (call H this c w)) = wire w ++ [(Call_RequestType c, jwe)].
Proof.
  intros Hc Hs Hv.
  rewrite call_result, call_logged, call_wire, Hc, Hs, Hv.
  by rewrite app_nil_r.
Qed.

Lemma response_is_returned_witness :
  fst (call mock_host 0 (CallQuery "foo") (world_with (Some mock_echo))) =
    Normal (VJson (JObj [("ok", JBool true)])) /\
  logged (snd (call mock_host 0 (CallQuery "foo") (world_with (Some mock_echo)))) = [].
Proof.
  pose proof (response_is_returned mock_host 0 (CallQuery "foo")
                (world_with (Some mock_echo)) mock_echo _ _
                eq_refl eq_refl eq_refl) as (Hres & Hlog & _).
  split; [exact Hres|exact Hlog].
Defined.

(** ** The subscriptions *)

Lemma onDidCreateFiles_runs (H : Host) (files : list Uri) (w : World)
    (this : nat) :
  static_instance w = Some this ->
  onDidCreateFiles H files w =
  (Normal tt, snd (call H this (CallUpdateIndexV2 (map fsPath files) mode_add) w)).
Proof.
  intros Hs. unfold onDidCreateFiles, bind.
  rewrite (LspClient_instance_present w this Hs).
  change (updateIndexV2 H this (map fsPath files) "add" w)
    with (call H this (CallUpdateIndexV2 (map fsPath files) mode_add) w).
  destruct (call_resolves H this (CallUpdateIndexV2 (map fsPath files) mode_add) w)
    as [v Hv].
  destruct (call H this _ w) as [r w']. cbn in Hv. by subst r.
Qed.

Lemma onDidDeleteFiles_runs (H : Host) (files : list Uri) (w : World)
    (this : nat) :
  static_instance w = Some this ->
  onDidDeleteFiles H files w =
  (Normal tt, snd (call H this (CallUpdateIndexV2 (map fsPath files) mode_remove) w)).
Proof.
  intros Hs. unfold onDidDeleteFiles, bind.
  rewrite (LspClient_instance_present w this Hs).
  change (updateIndexV2 H this (map fsPath files) "remove" w)
    with (call H this (CallUpdateIndexV2 (map fsPath files) mode_remove) w).
  destruct (call_resolves H this (CallUpdateIndexV2 (map fsPath files) mode_remove) w)
    as [v Hv].
  destruct (call H this _ w) as [r w']. cbn in Hv. by subst r.
Qed.

(** X6. When files are created, the handler encrypts one payload that
    lists their paths, in the order of the event, with the mode [add], and
    sends it under the tag of [updateIndexV2] if a channel is set and the
    encryption succeeds; when files are deleted it does the same with the
    mode [remove]. An event with no file still gives a request, with an
    empty list. A rename gives nothing at all: the world stays as it was.
    No handler completes abruptly, so the promises they leave to themselves
    never reject. *)
Theorem file_events_update_the_index
    (H : Host) (files : list Uri) (w : World) (this : nat) :
  static_instance w = Some this ->
  let payload mode :=
    JSON_stringify (JObj [("filePaths", JArr (map JStr (map fsPath files)));
                          ("updateMode", JStr mode)]) in
  let sent mode :=
    match
      jose_CompactEncrypt H {| alg := "dir"; enc := "A256GCM" |} (key H)
        (TextEncoder_encode (payload mode)) (length (encrypted w)),
      channel w this
    with
    | Normal jwe, Some _ => [(UpdateIndexV2RequestType, jwe)]
    | _, _ => []
    end in
  fst (onDidCreateFiles H files w) = Normal tt /\
  encrypted (snd (onDidCreateFiles H files w)) = encrypted w ++ [payload "add"] /\
  wire (snd (onDidCreateFiles H files w)) = wire w ++ sent "add" /\
  fst (onDidDeleteFiles H files w) = Normal tt /\
  encrypted (snd (onDidDeleteFiles H files w)) = encrypted w ++ [payload "remove"] /\
  wire (snd (onDidDeleteFiles H files w)) = wire w ++ sent "remove" /\
  forall renamed, onDidRenameFiles renamed w = (Normal tt, w).
Proof.
  intros Hs. cbv zeta.
  rewrite (onDidCreateFiles_runs H files w this Hs),
    (onDidDeleteFiles_runs H files w this Hs).
  cbn [fst snd]. rewrite !call_encrypted, !call_wire. done.
Qed.

Lemma file_events_update_the_index_witness :
  wire (snd (onDidCreateFiles mock_host [] (world_with (Some mock_echo)))) =
  [(UpdateIndexV2RequestType,
    "dir.A256GCM.0.{" +:+ quoted "filePaths" +:+ ":[]," +:+
    quoted "updateMode" +:+ ":" +:+ quoted "add" +:+ "}")].
Proof.
  pose proof (file_events_update_the_index mock_host []
                (world_with (Some mock_echo)) 0 eq_refl)
    as (_ & _ & Hwire & _).
  exact Hwire.
Defined.

Lemma onDidChangeActiveTextEditor_runs (H : Host) (editor : option Uri)
    (saved : Uri) (w : World) (this : nat) :
  static_instance w = Some this ->
  onDidChangeActiveTextEditor H editor (Some saved) w =
  (Normal tt,
   if shows_another saved editor
   then snd (call H this (CallUpdateIndex (fsPath saved)) w)
   else w).
Proof.
  intros Hs. unfold onDidChangeActiveTextEditor, shows_another.
  destruct editor as [uri|]; [|done].
  destruct (negb (String.eqb (fsPath uri) (fsPath saved))); [|done].
  unfold bind. rewrite (LspClient_instance_present w this Hs).
  change (updateIndex H this (fsPath saved) w)
    with (call H this (CallUpdateIndex (fsPath saved)) w).
  destruct (call_resolves H this (CallUpdateIndex (fsPath saved)) w) as [v Hv].
  destruct (call H this _ w) as [r w']. cbn in Hv. by subst r.
Qed.

(** X7. A document is remembered when it is saved under the scheme [file]
    and a save under another scheme changes nothing. The remembered
    document is never forgotten: every later change to an editor that
    shows another path encrypts one more [updateIndex] payload for the same
    saved path, so after a series of editor changes there are as many such
    payloads as editors showing another path. A change to no editor, or to
    an editor on the saved path, does nothing, and so does any change while
    no document is remembered. *)
Theorem saved_document_is_updated_on_every_editor_change
    (H : Host) (saved : Uri) (editors : list (option Uri)) (w : World)
    (this : nat) :
  static_instance w = Some this ->
  fst (editor_changes H (Some saved) editors w) = Normal tt /\
  encrypted (snd (editor_changes H (Some saved) editors w)) =
    encrypted w ++
    replicate (length (List.filter (shows_another saved) editors))
      (JSON_stringify (JObj [("filePath", JStr (fsPath saved))])) /\
  (Forall (fun editor => shows_another saved editor = false) editors ->
   editor_changes H (Some saved) editors w = (Normal tt, w)) /\
  editor_changes H None editors w = (Normal tt, w) /\
  (forall d previous,
     onDidSaveTextDocument d previous =
       if String.eqb (scheme d) "file" then Some d else previous).
Proof.
  intros Hs. split; [|split; [|split; [|split]]].
  - revert w Hs. induction editors as [|editor rest IH]; intros w Hs; [done|].
    cbn [editor_changes]. unfold bind.
    rewrite (onDidChangeActiveTextEditor_runs H editor saved w this Hs).
    apply IH. destruct (shows_another saved editor); [|done].
    by destruct (call_objects H this (CallUpdateIndex (fsPath saved)) w) as [-> _].
  - revert w Hs. induction editors as [|editor rest IH]; intros w Hs.
    { cbn. by rewrite app_nil_r. }
    cbn [editor_changes List.filter]. unfold bind.
    rewrite (onDidChangeActiveTextEditor_runs H editor saved w this Hs).
    destruct (shows_another saved editor).
    + rewrite IH.
      * rewrite call_encrypted. cbn [length replicate spec_payload].
        by rewrite <- app_assoc.
      * by destruct (call_objects H this (CallUpdateIndex (fsPath saved)) w)
          as [-> _].
    + by apply IH.
  - intros Hall. revert w Hs.
    induction Hall as [|editor rest Hno _ IH]; intros w Hs; [done|].
    cbn [editor_changes]. unfold bind.
    rewrite (onDidChangeActiveTextEditor_runs H editor saved w this Hs), Hno.
    by apply IH.
  - clear Hs. induction editors as [|editor rest IH]; [done|].
    cbn [editor_changes]. unfold bind, onDidChangeActiveTextEditor, ret.
    exact IH.
  - intros d previous. unfold onDidSaveTextDocument.
    by destruct (String.eqb (scheme d) "file").
Qed.

Lemma saved_document_is_updated_on_every_editor_change_witness :
  let saved := {| scheme := "file"; fsPath := "/w/a.ts" |} in
  let other := {| scheme := "file"; fsPath := "/w/b.ts" |} in
  encrypted
    (snd (editor_changes mock_host (Some saved)
            [Some other; Some saved; None; Some other]
            (world_with (Some mock_echo)))) =
  replicate 2 (JSON_stringify (JObj [("filePath", JStr "/w/a.ts")])).
Proof.
  cbv zeta.
  pose proof (saved_document_is_updated_on_every_editor_change mock_host
                {| scheme := "file"; fsPath := "/w/a.ts" |}
                [Some {| scheme := "file"; fsPath := "/w/b.ts" |};
                 Some {| scheme := "file"; fsPath := "/w/a.ts" |};
                 None;
                 Some {| scheme := "file"; fsPath := "/w/b.ts" |}]
                (world_with (Some mock_echo)) 0 eq_refl)
    as (_ & Hencrypted & _).
  exact Hencrypted.
Defined.

(** ** Shutdown and activation *)

Lemma deactivate_runs (w : World) (this : nat) :
  static_instance w = Some this ->
  deactivate w =
  (match channel w this with
   | Some cl => stop cl
   | None => Normal VUndefined
   end, w).
Proof.
  intros Hs. unfold deactivate, bind, this_client, gets, await, ret.
  rewrite (LspClient_instance_present w this Hs).
  destruct (channel w this) as [cl|] eqn:Hc; [|done].
  rewrite (LspClient_instance_present w this Hs), Hc. by destruct (stop cl).
Qed.

Lemma deactivate_fresh (w : World) :
  static_instance w = None ->
  deactivate w =
  (Normal VUndefined,
   with_static_instance (Some (length (heap w)))
     (with_heap (heap w ++ [{| client := None |}]) w)).
Proof.
  intros Hs.
  unfold deactivate, LspClient_instance, LspClient_new, bind, this_client,
    gets, modify, await, ret, channel.
  rewrite Hs. cbn. by rewrite lookup_app_r, Nat.sub_diag.
Qed.

Lemma activate_client (H : Host) (ctx : ExtensionContext) (w : World) :
  one_instance w ->
  exists child,
    children (snd (activate H ctx w)) = children w ++ [child] /\
    spawnfile child =
      asAbsolutePath ctx
        (path_join H ["resources";
                      if String.eqb (process_platform w) "win32"
                      then "node.exe" else "node"]) /\
    spawnargs child =
      [path_join H [extensionPath ctx; "resources/qserver/lspServer.js"];
       "--nolazy"; "--preserve-symlinks"; "--stdio"] /\
    static_instance (snd (activate H ctx w)) = Some 0 /\
    heap (snd (activate H ctx w)) =
      [{| client := Some (LanguageClient_new H child) |}] /\
    wire (snd (activate H ctx w)) = wire w /\
    logged (snd (activate H ctx w)) = logged w /\
    encrypted (snd (activate H ctx w)) = encrypted w.
Proof.
  unfold activate, writeEncryptionInit, LspClient_instance, LspClient_new,
    set_client, spawn, setenv, unsetenv, Writable_write, bind, gets, modify, ret.
  destruct (localIndexGPUEnabled w) eqn:Hg,
    (number_gtb (indexWorkerThreads w) 0 && number_ltb (indexWorkerThreads w) 100) eqn:Ht;
    intros [[Hi Hh]|[Hi Hh]];
    try (destruct (heap w) as [|o [|o' rest]] eqn:Hheap; try discriminate Hh);
    repeat (progress (cbn -[JSON_stringify base64 key String.eqb number_gtb number_ltb number_toString];
                      rewrite ?Hi, ?Hg, ?Ht, ?Hh, ?Hheap));
    eexists; repeat split.
Qed.

(** X9. On a process with at most one client, [activate] spawns one child,
    the node executable of the platform ([node.exe] on [win32]) on the
    server module with the three fixed arguments, and sets the channel of
    the one client to the language client built over that child; it sends,
    logs and encrypts nothing itself. From then on a request of the six
    kinds whose encryption succeeds goes to that language client, and
    [deactivate] returns what its [stop] returns. *)
Theorem activate_installs_the_channel
    (H : Host) (ctx : ExtensionContext) (w : World) :
  one_instance w ->
  let w' := snd (activate H ctx w) in
  exists child,
    last (children w') = Some child /\
    length (children w') = S (length (children w)) /\
    spawnfile child =
      asAbsolutePath ctx
        (path_join H ["resources";
                      if String.eqb (process_platform w) "win32"
                      then "node.exe" else "node"]) /\
    spawnargs child =
      [path_join H [extensionPath ctx; "resources/qserver/lspServer.js"];
       "--nolazy"; "--preserve-symlinks"; "--stdio"] /\
    fst (LspClient_instance w') = Normal 0 /\
    channel w' 0 = Some (LanguageClient_new H child) /\
    wire w' = wire w /\ logged w' = logged w /\ encrypted w' = encrypted w /\
    (forall c jwe,
       ciphertext H c w' = Normal jwe ->
       wire (snd (call H 0 c w')) = wire w ++ [(Call_RequestType c, jwe)] /\
       fst (call H 0 c w') =
         match sendRequest (LanguageClient_new H child) (wire w)
                 (Call_RequestType c) jwe with
         | Normal v => Normal v
         | Throw _ => Normal (spec_sentinel c)
         end) /\
    fst (deactivate w') = stop (LanguageClient_new H child).
Proof.
  intros Hw. cbv zeta.
  destruct (activate_client H ctx w Hw)
    as (child & Hchildren & Hfile & Hargs & Hstatic & Hheap & Hwire & Hlog & Henc).
  assert (Hchannel : channel (snd (activate H ctx w)) 0 =
                     Some (LanguageClient_new H child))
    by (unfold channel; by rewrite Hheap).
  exists child. rewrite Hchildren, Hwire, Hlog, Henc.
  split; [apply last_snoc|].
  split; [rewrite length_app; cbn; lia|].
  do 2 (split; [done|]).
  split; [by rewrite (LspClient_instance_present _ 0 Hstatic)|].
  split; [done|]. do 3 (split; [done|]). split.
  - intros c jwe Hjwe.
    by rewrite call_wire, call_result, Hjwe, Hchannel, Hwire.
  - by rewrite (deactivate_runs _ 0 Hstatic), Hchannel.
Qed.

Lemma activate_installs_the_channel_witness :
  let w' := snd (activate mock_host mock_context world0) in
  one_instance world0 /\
  channel w' 0 = Some mock_echo /\
  fst (deactivate w') = Normal VUndefined /\
  length (children w') = 1.
Proof.
  cbv zeta.
  assert (Hw : one_instance world0) by (left; split; reflexivity).
  pose proof (activate_installs_the_channel mock_host mock_context world0 Hw)
    as (child & _ & Hlen & _ & _ & _ & Hchannel & _ & _ & _ & _ & Hstop).
  split; [exact Hw|]. split; [exact Hchannel|]. split; [exact Hstop|exact Hlen].
Defined.

Lemma activate_settings (H : Host) (ctx : ExtensionContext) (w : World) :
  indexWorkerThreads (snd (activate H ctx w)) = indexWorkerThreads w /\
  localIndexGPUEnabled (snd (activate H ctx w)) = localIndexGPUEnabled w /\
  process_platform (snd (activate H ctx w)) = process_platform w /\
  activeTextEditor (snd (activate H ctx w)) = activeTextEditor w.
Proof.
  unfold activate, writeEncryptionInit, LspClient_instance, LspClient_new,
    set_client, spawn, setenv, unsetenv, Writable_write, bind, gets, modify, ret.
  destruct (static_instance w) eqn:Hi, (localIndexGPUEnabled w) eqn:Hg,
    (number_gtb (indexWorkerThreads w) 0 && number_ltb (indexWorkerThreads w) 100) eqn:Ht;
    repeat (progress (cbn -[JSON_stringify base64 key String.eqb number_gtb number_ltb number_toString];
                      rewrite ?Hi, ?Hg, ?Ht));
    done.
Qed.

(** X10. Of the environment of the process, [activate] touches the two
    variables [Q_ENABLE_GPU] and [Q_WORKER_THREADS] and no other: every
    other variable is, in the process and in the child, what it was. The
    change is made in the process itself, so it outlasts the spawn, and a
    second activation under the same settings leaves the environment as
    the first one left it. *)
Theorem activate_touches_two_variables
    (H : Host) (ctx ctx' : ExtensionContext) (w : World) (name : string) :
  name <> "Q_ENABLE_GPU" ->
  name <> "Q_WORKER_THREADS" ->
  let w' := snd (activate H ctx w) in
  process_env w' !! name = process_env w !! name /\
  (exists child,
     last (children w') = Some child /\
     spawn_env child !! name = process_env w !! name) /\
  process_env (snd (activate H ctx' w')) = process_env w'.
Proof.
  intros Hgpu Hthreads. cbv zeta.
  destruct (activate_spawns H ctx w)
    as (child & _ & Hchildren & _ & _ & Henv & Hprocess).
  destruct (activate_spawns H ctx' (snd (activate H ctx w)))
    as (child' & _ & _ & _ & _ & _ & Hprocess').
  destruct (activate_settings H ctx w) as (Hn & Hg & _).
  assert (Hname : process_env (snd (activate H ctx w)) !! name =
                  process_env w !! name).
  { rewrite Hprocess. cbv zeta.
    destruct (localIndexGPUEnabled w), (_ && _); by simplify_map_eq. }
  split; [exact Hname|]. split.
  - exists child. rewrite Hchildren, Henv. split; [apply last_snoc|exact Hname].
  - rewrite Hprocess', Hn, Hg. cbv zeta. rewrite Hprocess. cbv zeta.
    apply map_eq. intros k.
    destruct (decide (k = "Q_ENABLE_GPU")) as [Hk1|Hk1];
      destruct (decide (k = "Q_WORKER_THREADS")) as [Hk2|Hk2];
      destruct (localIndexGPUEnabled w), (_ && _);
      by simplify_map_eq.
Qed.

Lemma activate_touches_two_variables_witness :
  process_env
    (snd (activate mock_host mock_context
            (with_process_env (<["PATH" := "/usr/bin"]> ∅) world0))) !! "PATH" =
  Some "/usr/bin".
Proof.
  pose proof (activate_touches_two_variables mock_host mock_context mock_context
                (with_process_env (<["PATH" := "/usr/bin"]> ∅) world0) "PATH")
    as Hframe.
  destruct Hframe as (Hpath & _); [discriminate|discriminate|].
  exact Hpath.
Defined.

(** X11. Nothing guards against a second activation. It spawns a second
    child and writes to it the same line, with the same key, as to the
    first; the client object stays the one there was, and its channel is
    now the language client over the second child, the first one being
    neither stopped nor kept. *)
Theorem second_activation_replaces_the_channel
    (H : Host) (ctx1 ctx2 : ExtensionContext) (w : World) :
  one_instance w ->
  let w2 := snd (activate H ctx2 (snd (activate H ctx1 w))) in
  let line := [spec_init_line (base64 (key H)); newline] in
  exists first second,
    children w2 = children w ++ [first; second] /\
    streams w2 = streams w ++ [line; line] /\
    stdin first = length (streams w) /\
    stdin second = S (length (streams w)) /\
    heap w2 = [{| client := Some (LanguageClient_new H second) |}] /\
    fst (LspClient_instance w2) = Normal 0 /\
    wire w2 = wire w.
Proof.
  intros Hw. cbv zeta.
  pose proof (one_instance_activate H ctx1 w Hw) as Hw1.
  destruct (activate_spawns H ctx1 w)
    as (first & _ & Hchildren1 & Hstdin1 & Hstreams1 & _).
  destruct (activate_spawns H ctx2 (snd (activate H ctx1 w)))
    as (second & _ & Hchildren2 & Hstdin2 & Hstreams2 & _).
  destruct (activate_client H ctx1 w Hw) as (c1 & _ & _ & _ & _ & _ & Hwire1 & _).
  destruct (activate_client H ctx2 _ Hw1)
    as (c2 & Hc2 & _ & _ & Hstatic & Hheap & Hwire2 & _).
  assert (c2 = second) as ->.
  { rewrite Hchildren2 in Hc2. by apply app_inj_tail in Hc2 as [_ ->]. }
  exists first, second.
  rewrite Hchildren2, Hchildren1, Hstreams2, Hstreams1, Hstdin1, Hstdin2,
    Hstreams1, Hheap, Hwire2, Hwire1, <- !app_assoc.
  rewrite (LspClient_instance_present _ 0 Hstatic), length_app. cbn.
  repeat split. lia.
Qed.

Lemma second_activation_replaces_the_channel_witness :
  length (children (snd (activate mock_host mock_context
                           (snd (activate mock_host mock_context world0))))) = 2.
Proof.
  assert (Hw : one_instance world0) by (left; split; reflexivity).
  pose proof (second_activation_replaces_the_channel mock_host mock_context
                mock_context world0 Hw)
    as (first & second & Hchildren & _).
  by rewrite Hchildren.
Defined.

(** ** The key in the bootstrap line *)

Lemma all_bytes_complete (b : byte) : In b all_bytes.
Proof.
  unfold all_bytes. apply in_map_iff. exists (Byte.to_nat b). split.
  - by rewrite Byte.of_to_nat.
  - apply in_seq. pose proof (Byte.to_nat_bounded b). lia.
Qed.

Lemma for_all_bytes (P : byte -> bool) :
  forallb P all_bytes = true -> forall b, P b = true.
Proof.
  intros Hall b. rewrite forallb_forall in Hall. apply Hall, all_bytes_complete.
Qed.

Lemma for_all_bytes2 (P : byte -> byte -> bool) :
  forallb (fun a => forallb (P a) all_bytes) all_bytes = true ->
  forall a b, P a b = true.
Proof.
  intros Hall a b.
  apply (for_all_bytes (P a)), (for_all_bytes _ Hall).
Qed.

Lemma base64_index_char (i : N) :
  (i < 64)%N ->
  base64_index (base64_char i) = Some i /\ base64_char i <> "="%char.
Proof.
  intros Hi.
  assert (Hn : N.to_nat i < 64) by lia.
  rewrite <- (N2Nat.id i). generalize dependent (N.to_nat i). clear.
  intros n Hn.
  do 64 (destruct n as [|n]; [split; [reflexivity|discriminate]|]). lia.
Qed.

Lemma sextets_bounded (a b : byte) :
  (sextet1 a < 64 /\ sextet2 a b < 64 /\ sextet3 a b < 64 /\ sextet4 a < 64)%N.
Proof.
  pose proof (for_all_bytes2
    (fun a b => (sextet1 a <? 64)%N && (sextet2 a b <? 64)%N &&
                (sextet3 a b <? 64)%N && (sextet4 a <? 64)%N)
    ltac:(vm_compute; reflexivity) a b) as Hb.
  cbv beta in Hb.
  apply andb_prop in Hb as [[[H1 H2]%andb_prop H3]%andb_prop H4].
  by rewrite N.ltb_lt in H1, H2, H3, H4.
Qed.

Lemma octets_of_sextets (a b c : byte) :
  octet1 (sextet1 a) (sextet2 a b) = Byte.to_N a /\
  octet2 (sextet2 a b) (sextet3 b c) = Byte.to_N b /\
  octet3 (sextet3 b c) (sextet4 c) = Byte.to_N c.
Proof.
  pose proof (for_all_bytes2
    (fun a b => (octet1 (sextet1 a) (sextet2 a b) =? Byte.to_N a)%N &&
                (N.land (sextet2 a b) 15 =? N.shiftr (Byte.to_N b) 4)%N &&
                (N.shiftr (sextet3 a b) 2 =? N.land (Byte.to_N a) 15)%N &&
                (N.land (sextet3 a b) 3 =? N.shiftr (Byte.to_N b) 6)%N &&
                (N.lor (N.shiftl (N.shiftr (Byte.to_N a) 4) 4)
                   (N.land (Byte.to_N a) 15) =? Byte.to_N a)%N &&
                (N.lor (N.shiftl (N.shiftr (Byte.to_N a) 6) 6)
                   (sextet4 a) =? Byte.to_N a)%N)
    ltac:(vm_compute; reflexivity)) as Hall.
  cbv beta in Hall.
  assert (Hab := Hall a b). assert (Hbc := Hall b c). assert (Hcc := Hall c c).
  repeat match goal with
    | H : _ && _ = true |- _ => apply andb_prop in H as [? ?]
    | H : (_ =? _)%N = true |- _ => apply N.eqb_eq in H
    end.
  split; [assumption|]. unfold octet2, octet3. split; congruence.
Qed.

Lemma base64_decode_encode (bs : list byte) :
  base64_decode (base64 bs) = Some bs.
Proof.
  assert (Hpad : forall s, (base64_char s =? "=")%char = false \/ (64 <= s)%N).
  { intros s. destruct (N.lt_ge_cases s 64) as [Hs|Hs]; [left|by right].
    destruct (base64_index_char s Hs) as [_ Hne].
    by destruct (Ascii.eqb_spec (base64_char s) "="%char). }
  induction bs as [|a|a b|a b c rest IH] using list_ind3; [reflexivity|..].
  - destruct (sextets_bounded a x00) as (H1 & H2 & _).
    destruct (base64_index_char _ H1) as [E1 _].
    destruct (base64_index_char _ H2) as [E2 _].
    destruct (octets_of_sextets a x00 x00) as (O1 & _).
    cbn [base64 base64_decode]. rewrite E1, E2.
    cbn [mbind option_bind]. rewrite !Ascii.eqb_refl, O1, Byte.of_to_N.
    reflexivity.
  - destruct (sextets_bounded a b) as (H1 & H2 & _).
    destruct (sextets_bounded b x00) as (_ & _ & H3 & _).
    destruct (base64_index_char _ H1) as [E1 _].
    destruct (base64_index_char _ H2) as [E2 _].
    destruct (base64_index_char _ H3) as [E3 _].
    destruct (Hpad (sextet3 b x00)) as [P3|P3]; [|lia].
    destruct (octets_of_sextets a b x00) as (O1 & O2 & _).
    cbn [base64 base64_decode]. rewrite E1, E2.
    cbn [mbind option_bind]. rewrite Ascii.eqb_refl, P3, E3.
    cbn [mbind option_bind]. rewrite O1, O2, !Byte.of_to_N.
    reflexivity.
  - destruct (sextets_bounded a b) as (H1 & H2 & _).
    destruct (sextets_bounded b c) as (_ & _ & H3 & _).
    destruct (sextets_bounded c c) as (_ & _ & _ & H4).
    destruct (base64_index_char _ H1) as [E1 _].
    destruct (base64_index_char _ H2) as [E2 _].
    destruct (base64_index_char _ H3) as [E3 _].
    destruct (base64_index_char _ H4) as [E4 _].
    destruct (Hpad (sextet4 c)) as [P4|P4]; [|lia].
    destruct (octets_of_sextets a b c) as (O1 & O2 & O3).
    cbn [base64 base64_decode]. rewrite E1, E2.
    cbn [mbind option_bind]. rewrite P4, E3, E4.
    cbn [mbind option_bind]. rewrite O1, O2, O3, !Byte.of_to_N, IH.
    reflexivity.
Qed.

Lemma base64_inj (bs1 bs2 : list byte) : base64 bs1 = base64 bs2 -> bs1 = bs2.
Proof.
  intros Heq. apply (f_equal base64_decode) in Heq.
  rewrite !base64_decode_encode in Heq. by injection Heq.
Qed.

Lemma append_cons (c : ascii) (s t : string) :
  String c s +:+ t = String c (s +:+ t).
Proof. reflexivity. Qed.

Lemma append_nil_l (s : string) : EmptyString +:+ s = s.
Proof. reflexivity. Qed.

Lemma append_assoc (s t u : string) : (s +:+ t) +:+ u = s +:+ (t +:+ u).
Proof.
  induction s as [|c s IH]; [reflexivity|]. by rewrite !append_cons, IH.
Qed.

Lemma length_append (s t : string) :
  String.length (s +:+ t) = String.length s + String.length t.
Proof.
  induction s as [|c s IH]; [reflexivity|].
  rewrite append_cons. cbn [String.length]. by rewrite IH.
Qed.

Lemma append_cancel_r (s1 s2 t : string) : s1 +:+ t = s2 +:+ t -> s1 = s2.
Proof.
  revert s2. induction s1 as [|c1 s1 IH]; intros [|c2 s2] Heq.
  - reflexivity.
  - apply (f_equal String.length) in Heq.
    rewrite !length_append in Heq. cbn [String.length] in Heq. lia.
  - apply (f_equal String.length) in Heq.
    rewrite !length_append in Heq. cbn [String.length] in Heq. lia.
  - rewrite !append_cons in Heq. injection Heq as -> Heq.
    by rewrite (IH _ Heq).
Qed.

Lemma spec_init_line_inj (k1 k2 : string) :
  spec_init_line k1 = spec_init_line k2 -> k1 = k2.
Proof.
  unfold spec_init_line, quoted. intros Heq.
  repeat (rewrite ?append_cons in Heq; cbn [String.append] in Heq;
          first [ injection Heq as Heq
                | apply (inj (String.append _)) in Heq ]).
  by do 2 apply append_cancel_r in Heq.
Qed.

(** X12. The bootstrap line carries the key without loss: decoding the
    base64 text of the [key] field gives the 32 bytes back, so two
    processes that write the same line on a stream hold the same key. *)
Theorem bootstrap_line_determines_the_key
    (H1 H2 : Host) (stream : Writable) (w : World) (written : list string) :
  streams w !! stream = Some written ->
  streams (snd (writeEncryptionInit H1 stream w)) !! stream =
    streams (snd (writeEncryptionInit H2 stream w)) !! stream ->
  key H1 = key H2 /\
  base64_decode (base64 (key H1)) = Some (key H1).
Proof.
  intros Hw Heq. split; [|apply base64_decode_encode].
  rewrite !writeEncryptionInit_runs in Heq. cbn [snd streams with_streams] in Heq.
  unfold Writable in *.
  rewrite !list_lookup_alter_eq, Hw in Heq. cbn in Heq.
  injection Heq as Heq. apply app_inj_tail in Heq as [Heq _].
  apply app_inj_tail in Heq as [_ Heq].
  by apply base64_inj, spec_init_line_inj.
Qed.

Lemma bootstrap_line_determines_the_key_witness :
  streams (snd (activate mock_host mock_context world0)) !! 0 =
    Some [spec_init_line (base64 (key mock_host)); newline] /\
  base64_decode (base64 (key mock_host)) = Some (key mock_host).
Proof.
  split; [reflexivity|].
  exact (proj2 (bootstrap_line_determines_the_key mock_host mock_host 0
                  (snd (activate mock_host mock_context world0)) _
                  eq_refl eq_refl)).
Defined.

(** ** The payload on the wire *)

Lemma all_ascii_complete (c : ascii) : In c all_ascii.
Proof.
  unfold all_ascii. apply in_map_iff. exists (nat_of_ascii c). split.
  - apply ascii_nat_embedding.
  - apply in_seq. pose proof (nat_ascii_bounded c). lia.
Qed.

Lemma for_all_ascii (P : ascii -> bool) :
  forallb P all_ascii = true -> forall c, P c = true.
Proof.
  intros Hall c. rewrite forallb_forall in Hall. apply Hall, all_ascii_complete.
Qed.

Lemma is_prefix_of_equal_texts (p1 p2 r1 r2 : string) :
  p1 +:+ r1 = p2 +:+ r2 -> is_prefix p1 p2 = true \/ is_prefix p2 p1 = true.
Proof.
  revert p2. induction p1 as [|c1 p1 IH]; intros [|c2 p2] Heq; cbn; auto.
  rewrite !append_cons in Heq. injection Heq as -> Heq.
  rewrite Ascii.eqb_refl. cbn. by apply IH.
Qed.

(** The escapes of two characters are never the beginning of one another. *)
Lemma escape_char_prefix_free (c1 c2 : ascii) :
  is_prefix (escape_char c1) (escape_char c2) = true -> c1 = c2.
Proof.
  intros Hp.
  pose proof (for_all_ascii
    (fun c1 => forallb (fun c2 =>
       implb (is_prefix (escape_char c1) (escape_char c2)) (Ascii.eqb c1 c2))
       all_ascii)
    ltac:(vm_compute; reflexivity) c1) as Hall.
  cbv beta in Hall.
  pose proof (for_all_ascii _ Hall c2) as Hc. cbv beta in Hc.
  rewrite Hp in Hc. by apply Ascii.eqb_eq.
Qed.

Lemma escape_char_inj (c1 c2 : ascii) (r1 r2 : string) :
  escape_char c1 +:+ r1 = escape_char c2 +:+ r2 -> c1 = c2 /\ r1 = r2.
Proof.
  intros Heq.
  assert (c1 = c2) as ->.
  { destruct (is_prefix_of_equal_texts _ _ _ _ Heq) as [Hp|Hp];
      [|symmetry]; by apply escape_char_prefix_free. }
  split; [reflexivity|]. by apply (inj (String.append _)) in Heq.
Qed.

Lemma escape_char_unquoted (c : ascii) (r r' : string) :
  escape_char c +:+ r <> String dquote r'.
Proof.
  pose proof (for_all_ascii escape_begins_unquoted
                ltac:(vm_compute; reflexivity) c) as Hc.
  unfold escape_begins_unquoted in Hc.
  destruct (escape_char c) as [|x e]; [discriminate|].
  rewrite append_cons. intros [= -> _]. by rewrite Ascii.eqb_refl in Hc.
Qed.

(** An escaped text ends at the first quotation mark that follows it. *)
Lemma escape_inj (s1 s2 r1 r2 : string) :
  escape s1 +:+ String dquote r1 = escape s2 +:+ String dquote r2 ->
  s1 = s2 /\ r1 = r2.
Proof.
  revert s2. induction s1 as [|c1 s1 IH]; intros [|c2 s2] Heq;
    cbn [escape] in Heq.
  - by injection Heq as ->.
  - rewrite append_assoc in Heq. symmetry in Heq.
    by apply escape_char_unquoted in Heq.
  - rewrite append_assoc in Heq. by apply escape_char_unquoted in Heq.
  - rewrite !append_assoc in Heq.
    apply escape_char_inj in Heq as [-> Heq].
    by destruct (IH _ Heq) as [-> ->].
Qed.

Lemma QuoteJSONString_inj (s1 s2 r1 r2 : string) :
  QuoteJSONString s1 +:+ r1 = QuoteJSONString s2 +:+ r2 -> s1 = s2 /\ r1 = r2.
Proof.
  unfold QuoteJSONString. rewrite !append_cons, !append_assoc, !append_cons.
  intros [= Heq]. exact (escape_inj _ _ _ _ Heq).
Qed.

Lemma stringify_strings (l : list string) :
  map JSON_stringify (map JStr l) = map QuoteJSONString l.
Proof. by rewrite map_map. Qed.

Lemma join_cons2 (sep p q : string) (rest : list string) :
  join sep (p :: q :: rest) = p +:+ sep +:+ join sep (q :: rest).
Proof. reflexivity. Qed.

(** A list of quoted texts ends at the bracket that follows it. *)
Lemma quoted_list_inj (l1 l2 : list string) (r1 r2 : string) :
  join "," (map QuoteJSONString l1) +:+ "]" +:+ r1 =
  join "," (map QuoteJSONString l2) +:+ "]" +:+ r2 ->
  l1 = l2 /\ r1 = r2.
Proof.
  assert (Hopen : forall s l r r',
            join "," (map QuoteJSONString (s :: l)) +:+ r <> "]" +:+ r').
  { intros s [|s' l] r r'; cbn [map]; [cbn [join]|rewrite join_cons2];
      unfold QuoteJSONString; rewrite !append_cons; discriminate. }
  revert l2. induction l1 as [|s1 l1 IH]; intros [|s2 l2] Heq.
  - cbn [map join] in Heq. rewrite !append_nil_l, !append_cons, !append_nil_l in Heq.
    by injection Heq as ->.
  - symmetry in Heq. by apply Hopen in Heq.
  - by apply Hopen in Heq.
  - destruct l1 as [|s1' l1], l2 as [|s2' l2]; cbn [map] in Heq;
      rewrite ?join_cons2, ?append_assoc in Heq; cbn [join] in Heq;
      apply QuoteJSONString_inj in Heq as [-> Heq];
      rewrite ?append_cons, ?append_nil_l in Heq.
    + by injection Heq as ->.
    + discriminate Heq.
    + discriminate Heq.
    + injection Heq as Heq.
      by destruct (IH (s2' :: l2) Heq) as [-> ->].
Qed.

Lemma payload_inj (w : World) (c1 c2 : Call) :
  Call_RequestType c1 = Call_RequestType c2 ->
  JSON_stringify (spec_payload c1 w) = JSON_stringify (spec_payload c2 w) ->
  c1 = c2.
Proof.
  intros Htag Heq.
  destruct c1 as [l1 root1 b1|l1 root1|q1|q1 t1|f1|l1 m1],
    c2 as [l2 root2 b2|l2 root2|q2|q2 t2|f2|l2 m2];
    cbn [Call_RequestType] in Htag;
    try destruct t1; try destruct t2; try discriminate Htag;
    cbn [spec_payload] in Heq;
    cbn [JSON_stringify map join] in Heq; unfold JSON_member in Heq;
    cbn [JSON_stringify fst snd] in Heq;
    rewrite ?stringify_strings, ?append_assoc in Heq;
    repeat
      lazymatch type of Heq with
      | QuoteJSONString _ +:+ _ = QuoteJSONString _ +:+ _ =>
          apply QuoteJSONString_inj in Heq as [? Heq]
      | join _ _ +:+ _ = join _ _ +:+ _ =>
          apply quoted_list_inj in Heq as [? Heq]
      | String ?a EmptyString +:+ _ = String ?a EmptyString +:+ _ =>
          apply (inj (String.append (String a EmptyString))) in Heq
      end;
    subst; try reflexivity.
  - by destruct b1, b2.
  - by destruct m1, m2.
Qed.

(** X13. What a request carries names the call: two calls of the six
    kinds that go out under the same tag and give the same payload text
    to [encrypt] are the same call, with the same paths in the same order,
    the same texts and the same flags. No two different queries, paths or
    lists of paths are ever written as the same JSON text, whatever
    characters they hold. *)
Theorem request_determines_the_call
    (H : Host) (this : nat) (w : World) (c1 c2 : Call) :
  Call_RequestType c1 = Call_RequestType c2 ->
  encrypted (snd (call H this c1 w)) = encrypted (snd (call H this c2 w)) ->
  c1 = c2.
Proof.
  intros Htag Heq. rewrite !call_encrypted in Heq.
  apply app_inv_head in Heq. injection Heq as Heq.
  by apply (payload_inj w).
Qed.

Lemma request_determines_the_call_witness :
  CallUpdateIndex "a" = CallUpdateIndex "a".
Proof.
  exact (request_determines_the_call mock_host 0 world0
           (CallUpdateIndex "a") (CallUpdateIndex "a") eq_refl eq_refl).
Defined.

(** ** Nothing goes out in the clear *)

Lemma encrypted_request_mono (H : Host) (w w' : World) (more : list string)
    (r : Request) :
  encrypted w' = encrypted w ++ more ->
  encrypted_request H w r -> encrypted_request H w' r.
Proof.
  intros Hmore [Husage|(Hne & n & payload & Hn & Hjose)]; [by left|right].
  split; [exact Hne|]. exists n, payload. split; [|exact Hjose].
  rewrite Hmore. by apply lookup_app_l_Some.
Qed.

Lemma Call_RequestType_not_usage (c : Call) :
  Call_RequestType c <> GetUsageRequestType.
Proof. by destruct c as [| | |? []| |]. Qed.

Lemma LspClient_instance_quiet (w : World) :
  (exists this, fst (LspClient_instance w) = Normal this) /\
  wire (snd (LspClient_instance w)) = wire w /\
  encrypted (snd (LspClient_instance w)) = encrypted w.
Proof.
  unfold LspClient_instance, LspClient_new, bind, gets, modify, ret.
  destruct (static_instance w); cbn; eauto.
Qed.

Lemma activate_quiet (H : Host) (ctx : ExtensionContext) (w : World) :
  wire (snd (activate H ctx w)) = wire w /\
  encrypted (snd (activate H ctx w)) = encrypted w /\
  logged (snd (activate H ctx w)) = logged w.
Proof.
  unfold activate, writeEncryptionInit, LspClient_instance, LspClient_new,
    set_client, spawn, setenv, unsetenv, Writable_write, bind, gets, modify, ret.
  destruct (static_instance w) eqn:Hi, (localIndexGPUEnabled w) eqn:Hg,
    (number_gtb (indexWorkerThreads w) 0 && number_ltb (indexWorkerThreads w) 100) eqn:Ht;
    repeat (progress (cbn -[JSON_stringify base64 key String.eqb number_gtb number_ltb number_toString];
                      rewrite ?Hi, ?Hg, ?Ht));
    done.
Qed.

Lemma deactivate_quiet (w : World) :
  wire (snd (deactivate w)) = wire w /\
  encrypted (snd (deactivate w)) = encrypted w.
Proof.
  destruct (static_instance w) as [this|] eqn:Hs.
  - by rewrite (deactivate_runs w this Hs).
  - by rewrite (deactivate_fresh w Hs).
Qed.

Lemma call_keeps_wire_encrypted (H : Host) (this : nat) (c : Call) (w : World) :
  Forall (encrypted_request H w) (wire w) ->
  Forall (encrypted_request H (snd (call H this c w)))
    (wire (snd (call H this c w))).
Proof.
  intros Hw. rewrite call_wire. apply Forall_app. split.
  - eapply Forall_impl; [exact Hw|]. intros r.
    apply (encrypted_request_mono H w _ [JSON_stringify (spec_payload c w)]).
    apply call_encrypted.
  - destruct (ciphertext H c w) as [jwe|] eqn:Hjwe; [|by constructor].
    destruct (channel w this); constructor; [|by constructor].
    right. split; [apply Call_RequestType_not_usage|].
    exists (length (encrypted w)), (JSON_stringify (spec_payload c w)).
    split; [|exact Hjwe]. rewrite call_encrypted. apply list_lookup_middle.
    reflexivity.
Qed.

Lemma perform_keeps_wire_encrypted (H : Host) (op : Op) (w : World) :
  Forall (encrypted_request H w) (wire w) ->
  Forall (encrypted_request H (snd (perform H op w)))
    (wire (snd (perform H op w))).
Proof.
  intros Hw.
  assert (Hkeep : forall w',
            wire w' = wire w -> encrypted w' = encrypted w ->
            Forall (encrypted_request H w') (wire w')).
  { intros w' Hwire Henc. rewrite Hwire.
    eapply Forall_impl; [exact Hw|]. intros r.
    apply (encrypted_request_mono H w w' []). by rewrite Henc, app_nil_r. }
  destruct (LspClient_instance_quiet w) as ([this Hthis] & Hwire & Henc).
  destruct op as [|ctx| |c| |stream|editor|threads gpu]; unfold perform, bind.
  - destruct (LspClient_instance w) as [r w1]. cbn in Hthis, Hwire, Henc.
    subst r. by apply Hkeep.
  - destruct (activate_quiet H ctx w) as (Hw1 & He1 & _).
    destruct (activate H ctx w) as [[[]|e] w1]; by apply Hkeep.
  - destruct (deactivate_quiet w). by apply Hkeep.
  - destruct (LspClient_instance w) as [r w1]. cbn in Hthis, Hwire, Henc.
    subst r. by apply call_keeps_wire_encrypted, Hkeep.
  - destruct (LspClient_instance w) as [r w1]. cbn in Hthis, Hwire, Henc.
    subst r. rewrite getLspServerUsage_runs.
    destruct (channel w1 this); cbn [snd]; [|by apply Hkeep].
    unfold after_send. cbn [wire with_wire]. apply Forall_app. split.
    + eapply Forall_impl; [exact (Hkeep w1 Hwire Henc)|]. intros r.
      apply (encrypted_request_mono H w1 _ []). cbn. by rewrite app_nil_r.
    + constructor; [by left|constructor].
  - rewrite writeEncryptionInit_runs. by apply Hkeep.
  - by apply Hkeep.
  - by apply Hkeep.
Qed.

(** X14. Nothing but the request for the usage goes out in the clear.
    From a world whose wire is empty, whatever the extension does with the
    module and in whatever order, every request on the wire is either the
    request for the usage with the empty parameter, or carries the compact
    JWE that [jose] returned under the header [dir]/[A256GCM] and the
    session key for a payload that was given to [encrypt]. *)
Theorem only_ciphertext_on_the_wire (H : Host) (ops : list Op) (w : World) :
  wire w = [] ->
  Forall (encrypted_request H (run H ops w)) (wire (run H ops w)).
Proof.
  intros Hempty.
  assert (Hw : Forall (encrypted_request H w) (wire w))
    by (rewrite Hempty; constructor).
  clear Hempty. unfold run. revert w Hw.
  induction ops as [|op ops IH]; intros w Hw; [exact Hw|].
  cbn [fold_left]. by apply IH, perform_keeps_wire_encrypted.
Qed.

Lemma only_ciphertext_on_the_wire_witness :
  Forall
    (encrypted_request mock_host
       (run mock_host
          [OpActivate mock_context; OpCall (CallQuery "foo");
           OpGetLspServerUsage] world0))
    [(QueryRequestType,
      "dir.A256GCM.0.{" +:+ quoted "query" +:+ ":" +:+ quoted "foo" +:+ "}");
     (GetUsageRequestType, "")].
Proof.
  exact (only_ciphertext_on_the_wire mock_host
           [OpActivate mock_context; OpCall (CallQuery "foo");
            OpGetLspServerUsage] world0 eq_refl).
Defined.
